(** * Battery dispatch optimisation and its financial post-processing

    A shallow embedding of [models/dispatch_opt.py] and
    [post_processing/finance_calcs.py].

    Conventions of the embedding.

    - Numbers.  Python and numpy floats are idealised as real numbers
      ([R]); rounding, overflow and IEEE infinities are not modelled.  The
      only special value kept is the missing value (pandas [NaN] / [NaT],
      Python [None]), written [None] in an [option] cell: it is what index
      alignment produces and what the pandas reductions skip.
    - Frames.  A pandas frame with pairwise distinct integer index labels is
      a finite map from label to row ([gmap Z _]); [len] is [size].  A
      one-row frame of scalars read with [frame[col].iloc[0]] is a finite map
      from column name to value ([gmap string R]).
    - Exceptions.  A raised Python exception is [Raise cls] with the name of
      its class; functions that can raise return a [PyResult].
    - Timestamps are integers, nanoseconds since the epoch, without time
      zone, as pandas stores them.
    - The Pyomo model is the set of its parameters, variable declarations and
      indexed constraint rules; an assignment of the variables is feasible
      when it lies in every variable domain and satisfies every constraint
      the rules return.  The solver is an argument of the model functions. *)

From Stdlib Require Import Reals Lra ZArith List FinFun.
From Stdlib.Strings Require Import Byte Ascii String.
From stdpp Require Import gmap strings.

Local Open Scope R_scope.
Local Open Scope string_scope.

(** ** Exceptions *)

Inductive PyError : Type :=
| Raise (cls : string).

Definition PyResult (A : Type) : Type := (PyError + A)%type.

Definition ret {A : Type} (x : A) : PyResult A := inr x.

Definition bind {A B : Type} (c : PyResult A) (k : A -> PyResult B) : PyResult B :=
  match c with
  | inl e => inl e
  | inr x => k x
  end.

Notation "x <-- c ;; k" := (bind c (fun x => k))
  (at level 60, c at next level, right associativity).

Definition KeyError : PyError := Raise "KeyError".

(** [frame[col].iloc[0]] on a one-row frame of scalars. *)
Definition col (frame : gmap string R) (name : string) : PyResult R :=
  match frame !! name with
  | Some v => ret v
  | None => inl KeyError
  end.

(** ** Time-series input *)

(** One row of [input_ts]: the columns ['INTERVAL_START'], ['LMP'], ['load']. *)
Record ts_row : Type := {
  row_INTERVAL_START : Z;
  row_LMP : R;
  row_load : R
}.

(** [input_ts[column][t]]: lookup of the row labelled [t]. *)
Definition ts_at (input_ts : gmap Z ts_row) (t : nat) : PyResult ts_row :=
  match input_ts !! Z.of_nat t with
  | Some r => ret r
  | None => inl KeyError
  end.

Fixpoint ts_rows (input_ts : gmap Z ts_row) (ts : list nat) : PyResult (list ts_row) :=
  match ts with
  | [] => ret []
  | t :: ts' =>
      r <-- ts_at input_ts t ;;
      rs <-- ts_rows input_ts ts' ;;
      ret (r :: rs)
  end.

(** ** The Pyomo model *)

Inductive VarName : Type := P_d | P_c | S | P_m | u.

Inductive Domain : Type := NonNegativeReals | Reals | Binary.

(** A value for every variable at every time index. *)
Definition Assignment : Type := VarName -> nat -> R.

Definition in_domain (d : Domain) (x : R) : Prop :=
  match d with
  | NonNegativeReals => 0 <= x
  | Reals => True
  | Binary => x = 0 \/ x = 1
  end.

(** What a constraint rule returns. *)
Inductive Constr : Type :=
| c_eq (lhs rhs : R)
| c_le (lhs rhs : R)
| c_ge (lhs rhs : R)
| Skip.

Definition holds (c : Constr) : Prop :=
  match c with
  | c_eq l r => l = r
  | c_le l r => l <= r
  | c_ge l r => l >= r
  | Skip => True
  end.

(** The parameters of the model: [m.t] is [range(len_t)], the scalar [Param]s,
    the indexed [Param]s [m.LMP] and [m.P_l], and the value of
    [input_scalar['Starting/Ending SOC'].iloc[0]] that the rules close over. *)
Record Params : Type := {
  len_t : nat;
  P_d_max : R;
  P_c_max : R;
  Emax : R;
  SOC_min : R;
  SOC_max : R;
  delta_t : R;
  eta_conv : R;
  eta_self : R;
  LMP_series : list R;
  P_l_series : list R;
  SOC_start : R
}.

Definition LMP (p : Params) (t : nat) : R := nth t (LMP_series p) 0.
Definition P_l (p : Params) (t : nat) : R := nth t (P_l_series p) 0.

Definition Rule : Type := Params -> Assignment -> nat -> Constr.

Definition power_balance_rule : Rule := fun m a t =>
  c_eq (a P_m t) (a P_c t - a P_d t + P_l m t).

Definition storage_state_rule : Rule := fun m a t =>
  if (t =? 0)%nat then
    c_eq (a S t) (SOC_start m)
  else
    c_eq (a S t)
         (a S (t - 1)%nat * (1 - eta_self m * delta_t m)
          + delta_t m / Emax m
            * (a P_c (t - 1)%nat * eta_conv m - a P_d (t - 1)%nat / eta_conv m)).

Definition storage_power_rule : Rule := fun m a t =>
  c_le (a P_d t * delta_t m) (Emax m * a S t).

Definition boundary_conditions_rule : Rule := fun m a t =>
  if (t =? len_t m - 1)%nat then
    c_eq (a S t) (SOC_start m)
  else
    Skip.

Definition soc_min_rule : Rule := fun m a t => c_ge (a S t) (SOC_min m).

Definition soc_max_rule : Rule := fun m a t => c_le (a S t) (SOC_max m).

(** The two rules that differ between the formulations.  In [battery_model]
    the power limits are plain bounds. *)
Module Linear.
Definition max_charge_power_rule : Rule := fun m a t =>
  c_le (a P_c t) (P_c_max m).

Definition max_discharge_power_rule : Rule := fun m a t =>
  c_le (a P_d t) (P_d_max m).
End Linear.

(** In [battery_model_no_eff] they are gated by the binary [m.u]. *)
Module MixedInteger.
Definition max_charge_power_rule : Rule := fun m a t =>
  c_le (a P_c t) (P_c_max m * a u t).

Definition max_discharge_power_rule : Rule := fun m a t =>
  c_le (a P_d t) (P_d_max m * (1 - a u t)).
End MixedInteger.

Inductive TerminationCondition : Type :=
| optimal | infeasible | unbounded | otherTermination.

Record SolverResults : Type := {
  termination_condition : TerminationCondition
}.

(** A [ConcreteModel]: parameters, declared variables with their domains,
    constraints in declaration order, and the values the solver loaded into
    the variables ([None] while no solution has been loaded: every
    [var[t].value] is then Python's [None]). *)
Record ConcreteModel : Type := {
  params : Params;
  vars : list (VarName * Domain);
  constraints : list Rule;
  loaded : option Assignment
}.

Definition objective (m : Params) (a : Assignment) : R :=
  fold_right Rplus 0
    (map (fun t => LMP m t * a P_m t * delta_t m) (seq 0 (len_t m))).

Definition feasible (m : ConcreteModel) (a : Assignment) : Prop :=
  forall t : nat, (t < len_t (params m))%nat ->
    (forall v d, In (v, d) (vars m) -> in_domain d (a v t)) /\
    (forall rule, In rule (constraints m) -> holds (rule (params m) a t)).

Definition is_optimal (m : ConcreteModel) (a : Assignment) : Prop :=
  feasible m a /\
  forall a', feasible m a' -> objective (params m) a <= objective (params m) a'.

(** [solver.solve(m)]: the external solver either raises, or returns its
    results object and the values it loaded into the variables, if any. *)
Definition Solver : Type :=
  ConcreteModel -> PyResult (SolverResults * option Assignment).

(** The statements of both model functions up to [# Solve the model]; they
    are the same apart from [declared_vars] and [rules]. *)
Definition build (declared_vars : list (VarName * Domain)) (rules : list Rule)
    (input_ts : gmap Z ts_row) (input_scalar : gmap string R)
  : PyResult ConcreteModel :=
  let n := size input_ts in
  pdmax <-- col input_scalar "Maximum Discharge (MW)" ;;
  pcmax <-- col input_scalar "Maximum Charge (MW)" ;;
  emax <-- col input_scalar "Capacity (MWh)" ;;
  socmin <-- col input_scalar "Minimum SOC" ;;
  socmax <-- col input_scalar "Maximum SOC" ;;
  dt <-- col input_scalar "Time Step (hours)" ;;
  etac <-- col input_scalar "One-Way Conversion Efficiency (%)" ;;
  etas <-- col input_scalar "Self-Discharge (%/hr)" ;;
  rows <-- ts_rows input_ts (seq 0 n) ;;
  soc <-- (if (n =? 0)%nat then ret 0 else col input_scalar "Starting/Ending SOC") ;;
  ret {| params :=
           {| len_t := n;
              P_d_max := pdmax; P_c_max := pcmax; Emax := emax;
              SOC_min := socmin; SOC_max := socmax; delta_t := dt;
              eta_conv := etac; eta_self := etas;
              LMP_series := map row_LMP rows;
              P_l_series := map row_load rows;
              SOC_start := soc |};
         vars := declared_vars;
         constraints := rules;
         loaded := None |}.

Definition solve_and_return (solver : Solver) (m : ConcreteModel)
  : PyResult (ConcreteModel * SolverResults) :=
  out <-- solver m ;;
  ret ({| params := params m; vars := vars m; constraints := constraints m;
          loaded := snd out |}, fst out).

Definition battery_model_build := build
  [(P_d, NonNegativeReals); (P_c, NonNegativeReals); (S, NonNegativeReals); (P_m, Reals)]
  [power_balance_rule; storage_state_rule; storage_power_rule;
   boundary_conditions_rule;
   Linear.max_charge_power_rule; Linear.max_discharge_power_rule;
   soc_min_rule; soc_max_rule].

Definition battery_model_no_eff_build := build
  [(P_d, NonNegativeReals); (P_c, NonNegativeReals); (S, NonNegativeReals); (P_m, Reals);
   (u, Binary)]
  [power_balance_rule; storage_state_rule; storage_power_rule;
   boundary_conditions_rule;
   MixedInteger.max_charge_power_rule; MixedInteger.max_discharge_power_rule;
   soc_min_rule; soc_max_rule].

Definition battery_model (solver : Solver)
    (input_ts : gmap Z ts_row) (input_scalar : gmap string R)
  : PyResult (ConcreteModel * SolverResults) :=
  m <-- battery_model_build input_ts input_scalar ;;
  solve_and_return solver m.

Definition battery_model_no_eff (solver : Solver)
    (input_ts : gmap Z ts_row) (input_scalar : gmap string R)
  : PyResult (ConcreteModel * SolverResults) :=
  m <-- battery_model_no_eff_build input_ts input_scalar ;;
  solve_and_return solver m.

(** ** Result extraction *)

(** One row of the frame built by [extract_results]: a cell per model
    variable, then ['time (hours)'], ['LMP'] and ['load'].  A cell holds
    [None] for a missing value; the column of a variable the model does not
    declare ([u] in [battery_model]) is a column of [None]. *)
Record df_row : Type := {
  c_P_d : option R;
  c_P_c : option R;
  c_S : option R;
  c_P_m : option R;
  c_u : option R;
  c_time : option Z;
  c_LMP : option R;
  c_load : option R
}.

Definition var_eqb (v w : VarName) : bool :=
  match v, w with
  | P_d, P_d | P_c, P_c | S, S | P_m, P_m | u, u => true
  | _, _ => false
  end.

Definition declared (m : ConcreteModel) (v : VarName) : bool :=
  existsb (fun vd => var_eqb (fst vd) v) (vars m).

(** [var[t].value] for the column named after [v]. *)
Definition var_value (m : ConcreteModel) (v : VarName) (t : nat) : option R :=
  if declared m v then
    match loaded m with
    | Some a => Some (a v t)
    | None => None
    end
  else None.

(** The frame has the index [0 .. len(m.t) - 1]; assigning a column of
    [input_ts] aligns it on the index labels and leaves a missing value where
    [input_ts] has no row with that label.  (For an empty [m.t] the frame is
    empty here; pandas' adoption of the index of a non-empty [input_ts] in
    that corner is not modelled.) *)
Definition extract_results (m : ConcreteModel) (input_ts : gmap Z ts_row)
  : PyResult (list df_row) :=
  ret (map (fun t =>
              let r := input_ts !! Z.of_nat t in
              {| c_P_d := var_value m P_d t;
                 c_P_c := var_value m P_c t;
                 c_S := var_value m S t;
                 c_P_m := var_value m P_m t;
                 c_u := var_value m u t;
                 c_time := row_INTERVAL_START <$> r;
                 c_LMP := row_LMP <$> r;
                 c_load := row_load <$> r |})
           (seq 0 (len_t (params m)))).

(** ** Profit and discounting *)

(** Arithmetic on cells: a missing operand gives a missing result. *)
Definition cell_mul (x y : option R) : option R :=
  match x, y with
  | Some a, Some b => Some (a * b)
  | _, _ => None
  end.

Definition cell_sub (x y : option R) : option R :=
  match x, y with
  | Some a, Some b => Some (a - b)
  | _, _ => None
  end.

(** [Series.sum()]: missing values are skipped. *)
Definition Series_sum (cells : list (option R)) : R :=
  fold_right (fun c acc => match c with Some v => v + acc | None => acc end) 0 cells.

(** A row of [df_results]: the extracted row and the three profit columns. *)
Record result_row : Type := {
  base : df_row;
  profit : option R;
  no_battery_profit : option R;
  battery_profit : option R
}.

(** A row of [daily_finances]; [day] is the index label, the midnight that
    starts the calendar day. *)
Record daily_row : Type := {
  day : Z;
  daily_battery_profit : R;
  day_of_sim : Z;
  discounted_profit : R
}.

Definition profit_columns (time_step : R) (r : df_row) : result_row :=
  let p := cell_mul (cell_mul (cell_mul (Some (-1)) (c_LMP r)) (c_P_m r)) (Some time_step) in
  let nb := cell_mul (cell_mul (cell_mul (Some (-1)) (c_LMP r)) (c_load r)) (Some time_step) in
  {| base := r; profit := p; no_battery_profit := nb; battery_profit := cell_sub p nb |}.

Definition ns_per_day : Z := 86400000000000.

(** The calendar date of a timestamp, as a day number. *)
Definition date_of (ts : Z) : Z := (ts / ns_per_day)%Z.

(** [Timedelta.days]: the whole days in a difference of timestamps, rounded
    towards minus infinity. *)
Definition Timedelta_days (td : Z) : Z := (td / ns_per_day)%Z.

(** [Series.min()] and [Series.max()] of timestamps. *)
Definition ts_min (l : list Z) : option Z :=
  match l with
  | [] => None
  | x :: l' => Some (fold_right Z.min x l')
  end.

Definition ts_max (l : list Z) : option Z :=
  match l with
  | [] => None
  | x :: l' => Some (fold_right Z.max x l')
  end.

Definition timestamps (rows : list result_row) : list Z :=
  omap (fun r => c_time (base r)) rows.

Definition on_date (d : Z) (r : result_row) : bool :=
  match c_time (base r) with
  | Some ts => (date_of ts =? d)%Z
  | None => false
  end.

Definition day_range (lo hi : Z) : list Z :=
  map (fun i => (lo + Z.of_nat i)%Z) (seq 0 (Z.to_nat (hi - lo + 1))).

(** [df.set_index('time (hours)')[['battery_profit']].resample('D').sum()]:
    one bin per calendar day from the day of the earliest timestamp to the
    day of the latest one, labelled by its midnight; rows without timestamp
    belong to no bin and missing profits are skipped by the sum.  (A frame
    without any timestamp gives no bin here.) *)
Definition resample_D_sum (rows : list result_row) : list (Z * R) :=
  match ts_min (timestamps rows), ts_max (timestamps rows) with
  | Some lo, Some hi =>
      map (fun d => ((d * ns_per_day)%Z,
                     Series_sum (map battery_profit (List.filter (on_date d) rows))))
          (day_range (date_of lo) (date_of hi))
  | _, _ => []
  end.

(** One row of [daily_finances] from a bin of the resampled frame: its
    [day_of_sim] is [(label - start_date).days] and its discounted profit is
    [battery_profit / (1 + daily_discount_rate) ** day_of_sim], an integer
    power. *)
Definition discount (daily_discount_rate : R) (start_date : Z) (bin : Z * R) : daily_row :=
  let k := Timedelta_days (fst bin - start_date) in
  {| day := fst bin;
     daily_battery_profit := snd bin;
     day_of_sim := k;
     discounted_profit := snd bin / powerRZ (1 + daily_discount_rate) k |}.

(** [calculate_profit].  The float power [x ** (1/365)] is [Rpower x (1/365)],
    its value for a positive base [x]. *)
Definition calculate_profit (m : ConcreteModel) (input_ts : gmap Z ts_row)
    (finance_inputs : gmap string R)
  : PyResult (list result_row * R * list daily_row) :=
  df_out <-- extract_results m input_ts ;;
  time_step <-- col finance_inputs "Time Step (hours)" ;;
  let df_results := map (profit_columns time_step) df_out in
  real_discount_rate <-- col finance_inputs "Real Discount Rate (%)" ;;
  inflation_rate <-- col finance_inputs "Inflation Rate (%)" ;;
  let nominal_discount_rate := (1 + real_discount_rate) * (1 + inflation_rate) - 1 in
  let daily_discount_rate := Rpower (1 + nominal_discount_rate) (1 / 365) - 1 in
  let start_date := default 0%Z (ts_min (timestamps df_results)) in
  let daily_finances :=
    map (discount daily_discount_rate start_date) (resample_D_sum df_results) in
  let npv_op_profit := Series_sum (map (fun d => Some (discounted_profit d)) daily_finances) in
  ret (df_results, npv_op_profit, daily_finances).

(** ** The discounting rules in the words of the specification *)




Definition Rsum (l : list R) : R := fold_right Rplus 0 l.

(** The battery profit of the intervals whose timestamp falls on calendar
    day [d]. *)
Fixpoint spec_day_total (d : Z) (rows : list result_row) : R :=
  match rows with
  | [] => 0
  | r :: rest =>
      match c_time (base r), battery_profit r with
      | Some ts, Some p =>
          if (ts / ns_per_day =? d)%Z then p + spec_day_total d rest
          else spec_day_total d rest
      | _, _ => spec_day_total d rest
      end
  end.

(** The battery profit of all intervals that carry a timestamp. *)
Fixpoint spec_total (rows : list result_row) : R :=
  match rows with
  | [] => 0
  | r :: rest =>
      match c_time (base r), battery_profit r with
      | Some _, Some p => p + spec_total rest
      | _, _ => spec_total rest
      end
  end.

(** ** A worked horizon

    Three daily intervals, a 48 MWh battery with a one-way efficiency of
    90 %, and two schedules that return to the starting state of charge. *)

Definition demo_ts : gmap Z ts_row :=
  list_to_map
    [(0%Z, {| row_INTERVAL_START := 0; row_LMP := 10; row_load := 2 |});
     (1%Z, {| row_INTERVAL_START := ns_per_day; row_LMP := 1; row_load := 2 |});
     (2%Z, {| row_INTERVAL_START := 2 * ns_per_day; row_LMP := 5; row_load := 2 |})].

Definition demo_scalar : gmap string R :=
  list_to_map
    [("Maximum Discharge (MW)", 5); ("Maximum Charge (MW)", 5);
     ("Capacity (MWh)", 48); ("Minimum SOC", 0); ("Maximum SOC", 1);
     ("Time Step (hours)", 24); ("One-Way Conversion Efficiency (%)", 9 / 10);
     ("Self-Discharge (%/hr)", 0); ("Starting/Ending SOC", 1 / 2)].

Definition demo_finance (time_step real_discount_rate : R) : gmap string R :=
  list_to_map
    [("Time Step (hours)", time_step); ("Real Discount Rate (%)", real_discount_rate);
     ("Inflation Rate (%)", 0)].

(** Discharge on the first day, recharge on the second. *)
Definition discharge_first : Assignment := fun v t =>
  match v, t with
  | P_d, O => 9 / 20
  | P_c, 1%nat => 5 / 9
  | S, 1%nat => 1 / 4
  | S, _ => 1 / 2
  | P_m, O => 2 - 9 / 20
  | P_m, 1%nat => 2 + 5 / 9
  | P_m, _ => 2
  | u, 1%nat => 1
  | _, _ => 0
  end.

(** Charge on the first day, discharge on the second. *)
Definition charge_first : Assignment := fun v t =>
  match v, t with
  | P_c, O => 5 / 9
  | P_d, 1%nat => 9 / 20
  | S, 1%nat => 3 / 4
  | S, _ => 1 / 2
  | P_m, O => 2 + 5 / 9
  | P_m, 1%nat => 2 - 9 / 20
  | P_m, _ => 2
  | u, O => 1
  | _, _ => 0
  end.

Definition reports (tc : TerminationCondition) (values : option Assignment) : Solver :=
  fun _ => ret ({| termination_condition := tc |}, values).

Definition raises (cls : string) : Solver := fun _ => inl (Raise cls).

Definition demo_params : Params :=
  {| len_t := 3;
     P_d_max := 5; P_c_max := 5; Emax := 48; SOC_min := 0; SOC_max := 1;
     delta_t := 24; eta_conv := 9 / 10; eta_self := 0;
     LMP_series := [10; 1; 5]; P_l_series := [2; 2; 2];
     SOC_start := 1 / 2 |}.

Definition demo_linear (values : option Assignment) : ConcreteModel :=
  {| params := demo_params;
     vars := [(P_d, NonNegativeReals); (P_c, NonNegativeReals);
              (S, NonNegativeReals); (P_m, Reals)];
     constraints :=
       [power_balance_rule; storage_state_rule; storage_power_rule;
        boundary_conditions_rule;
        Linear.max_charge_power_rule; Linear.max_discharge_power_rule;
        soc_min_rule; soc_max_rule];
     loaded := values |}.

Definition demo_mixed (values : option Assignment) : ConcreteModel :=
  {| params := demo_params;
     vars := [(P_d, NonNegativeReals); (P_c, NonNegativeReals);
              (S, NonNegativeReals); (P_m, Reals); (u, Binary)];
     constraints :=
       [power_balance_rule; storage_state_rule; storage_power_rule;
        boundary_conditions_rule;
        MixedInteger.max_charge_power_rule; MixedInteger.max_discharge_power_rule;
        soc_min_rule; soc_max_rule];
     loaded := values |}.

(** A time series that lost its last two rows. *)
Definition short_ts : gmap Z ts_row :=
  list_to_map
    [(0%Z, {| row_INTERVAL_START := 0; row_LMP := 10; row_load := 2 |})].

(** The frame extracted from the worked horizon when the solver loaded the
    schedule [a] into the mixed-integer model, the battery profit of its
    rows and its daily bins. *)
Definition demo_df_out (a : Assignment) : list df_row :=
  [ {| c_P_d := Some (a P_d 0%nat); c_P_c := Some (a P_c 0%nat);
       c_S := Some (a S 0%nat); c_P_m := Some (a P_m 0%nat);
       c_u := Some (a u 0%nat);
       c_time := Some 0%Z; c_LMP := Some 10; c_load := Some 2 |};
    {| c_P_d := Some (a P_d 1%nat); c_P_c := Some (a P_c 1%nat);
       c_S := Some (a S 1%nat); c_P_m := Some (a P_m 1%nat);
       c_u := Some (a u 1%nat);
       c_time := Some ns_per_day; c_LMP := Some 1; c_load := Some 2 |};
    {| c_P_d := Some (a P_d 2%nat); c_P_c := Some (a P_c 2%nat);
       c_S := Some (a S 2%nat); c_P_m := Some (a P_m 2%nat);
       c_u := Some (a u 2%nat);
       c_time := Some (2 * ns_per_day)%Z; c_LMP := Some 5; c_load := Some 2 |} ].

Definition demo_battery_profit (dt : R) (a : Assignment) (t : nat) (price : R) : R :=
  (-1) * price * a P_m t * dt - (-1) * price * 2 * dt.

Definition demo_bins (dt : R) (a : Assignment) : list (Z * R) :=
  [ (0%Z, demo_battery_profit dt a 0 10 + 0);
    (ns_per_day, demo_battery_profit dt a 1 1 + 0);
    ((2 * ns_per_day)%Z, demo_battery_profit dt a 2 5 + 0) ].

Definition demo_rate (r : R) : R :=
  Rpower (1 + ((1 + r) * (1 + 0) - 1)) (1 / 365) - 1.

Definition demo_daily (dt r : R) (a : Assignment) : list daily_row :=
  map (discount (demo_rate r) 0) (demo_bins dt a).

Definition demo_npv (dt r : R) (a : Assignment) : R :=
  Series_sum (map (fun d => Some (discounted_profit d)) (demo_daily dt r a)).

(** A parameter set with exactly the columns that the docstring of
    [calculate_profit] asks for. *)
Definition documented_finance : gmap string R :=
  list_to_map
    [("Real Discount Rate (%)", 3 / 100); ("Inflation Rate (%)", 2 / 100)].

(** ** Schedules used to state further properties *)

(** The schedule that leaves the battery idle: no charge, no discharge, the
    state of charge kept at its starting value and the grid serving the
    load. *)
Definition idle (m : Params) : Assignment := fun v t =>
  match v with
  | S => SOC_start m
  | P_m => P_l m t
  | _ => 0
  end.

(** [a] changed in the last interval only: no charge, a discharge of [x],
    the discharging mode, and the grid power that balances them. *)
Definition discharge_at_end (m : Params) (a : Assignment) (x : R) : Assignment :=
  fun v t =>
    if (t =? len_t m - 1)%nat then
      match v with
      | P_c => 0
      | P_d => x
      | u => 0
      | P_m => 0 - x + P_l m t
      | S => a S t
      end
    else a v t.


(** The cost of serving the load without a battery. *)
Definition no_battery_cost (m : Params) : R :=
  Rsum (map (fun t => LMP m t * P_l m t * delta_t m) (seq 0 (len_t m))).

(** The change of stored energy caused by the powers of interval [k], per
    unit of [delta_t / Emax]. *)
Definition net_charge (eta : R) (a : Assignment) (k : nat) : R :=
  a P_c k * eta - a P_d k / eta.

(** The columns of [input_scalar] that the model functions read whatever
    the horizon is. *)
Definition scalar_columns : list string :=
  ["Maximum Discharge (MW)"; "Maximum Charge (MW)"; "Capacity (MWh)";
   "Minimum SOC"; "Maximum SOC"; "Time Step (hours)";
   "One-Way Conversion Efficiency (%)"; "Self-Discharge (%/hr)"].

(** The inputs with which the model functions reach the solver call. *)
Definition complete_inputs (input_ts : gmap Z ts_row) (input_scalar : gmap string R) : Prop :=
  (forall name, In name scalar_columns -> is_Some (input_scalar !! name)) /\
  ((0 < size input_ts)%nat -> is_Some (input_scalar !! "Starting/Ending SOC")) /\
  (forall t, (t < size input_ts)%nat -> is_Some (input_ts !! Z.of_nat t)).

(** A time series whose index starts at 1, as a frame has it after its
    first row was filtered out. *)
Definition shifted_ts : gmap Z ts_row :=
  list_to_map
    [(1%Z, {| row_INTERVAL_START := ns_per_day; row_LMP := 1; row_load := 2 |});
     (2%Z, {| row_INTERVAL_START := 2 * ns_per_day; row_LMP := 5; row_load := 2 |})].

(** The linear model of the one-interval series [short_ts] with the scalars
    of the worked horizon, and the schedule that discharges as much as the
    battery holds. *)
Definition one_step_linear : ConcreteModel :=
  {| params :=
       {| len_t := 1;
          P_d_max := 5; P_c_max := 5; Emax := 48; SOC_min := 0; SOC_max := 1;
          delta_t := 24; eta_conv := 9 / 10; eta_self := 0;
          LMP_series := [10]; P_l_series := [2];
          SOC_start := 1 / 2 |};
     vars := [(P_d, NonNegativeReals); (P_c, NonNegativeReals);
              (S, NonNegativeReals); (P_m, Reals)];
     constraints :=
       [power_balance_rule; storage_state_rule; storage_power_rule;
        boundary_conditions_rule;
        Linear.max_charge_power_rule; Linear.max_discharge_power_rule;
        soc_min_rule; soc_max_rule];
     loaded := None |}.

Definition sell_at_once : Assignment := fun v t =>
  match v with
  | P_d => 1
  | S => 1 / 2
  | P_m => 1
  | _ => 0
  end.

(** The scalars of the worked horizon with a one-way efficiency of 100 %. *)
Definition lossless_scalar : gmap string R :=
  <["One-Way Conversion Efficiency (%)" := 1]> demo_scalar.

(** The linear model of the worked horizon with other scalars. *)
Definition demo_linear_with (eta soc : R) : ConcreteModel :=
  {| params :=
       {| len_t := 3;
          P_d_max := 5; P_c_max := 5; Emax := 48; SOC_min := 0; SOC_max := 1;
          delta_t := 24; eta_conv := eta; eta_self := 0;
          LMP_series := [10; 1; 5]; P_l_series := [2; 2; 2];
          SOC_start := soc |};
     vars := vars (demo_linear None);
     constraints := constraints (demo_linear None);
     loaded := None |}.

(** The scalars of the worked horizon with a starting state of charge above
    the maximum. *)
Definition overfull_scalar : gmap string R :=
  <["Starting/Ending SOC" := 2]> demo_scalar.

(** ** The OASIS interface: helpers on tags and raw files

    A Python [str] is a [string]; a [bytes] object is a list of bytes. *)

(** [c in s] for a one-character [c]. *)
Fixpoint contains_char (c : ascii) (s : string) : bool :=
  match s with
  | EmptyString => false
  | String x rest => if Ascii.eqb x c then true else contains_char c rest
  end.

(** [s.split(c, 1)] for a one-character separator: the text before the
    first [c] and the text after it, or [s] alone when [c] does not occur. *)
Fixpoint split_once (c : ascii) (s : string) : list string :=
  match s with
  | EmptyString => [EmptyString]
  | String x rest =>
      if Ascii.eqb x c then [EmptyString; rest]
      else
        match split_once c rest with
        | before :: others => String x before :: others
        | [] => []
        end
  end.

Definition _strip_ns (tag : string) : string :=
  if contains_char "}" tag then List.last (split_once "}" tag) tag else tag.

(** The bytes that [bytes.lstrip()] removes: space, tab, line feed, carriage
    return, vertical tab and form feed. *)
Definition is_space (c : byte) : bool :=
  match c with
  | x20 | x09 | x0a | x0d | x0b | x0c => true
  | _ => false
  end.

Fixpoint lstrip (l : list byte) : list byte :=
  match l with
  | [] => []
  | c :: rest => if is_space c then lstrip rest else l
  end.

Fixpoint startswith (prefix l : list byte) : bool :=
  match prefix, l with
  | [], _ => true
  | _ :: _, [] => false
  | p :: prefix', c :: l' => Byte.eqb p c && startswith prefix' l'
  end.

Definition is_xml_file (raw_bytes : list byte) : bool :=
  let start := lstrip (firstn 20 raw_bytes) in
  startswith (list_byte_of_string "<?xml") start
  || startswith (list_byte_of_string "<") start.

(** [needle in haystack] on bytes. *)
Fixpoint bytes_in (needle haystack : list byte) : bool :=
  startswith needle haystack
  || match haystack with
     | [] => false
     | _ :: rest => bytes_in needle rest
     end.

Definition xml_contains_error (raw_bytes : list byte) : bool :=
  bytes_in (list_byte_of_string "ERROR>") raw_bytes
  || bytes_in (list_byte_of_string "ERR_CODE>") raw_bytes.

(** ** The OASIS interface: parsing and reading an archive

    A frame is the list of its rows in order, a row a finite map from column
    name to the text of the cell.  The XML parser [ET.fromstring], the CSV
    reader [pd.read_csv] and the case mappings [str.upper] and [str.lower]
    are library functions and arguments of the model. *)

#[warnings="-register-all"]
Inductive element : Type :=
| Element (tag : string) (text : option string) (children : list element).

Definition el_tag (e : element) : string :=
  match e with Element t _ _ => t end.

Definition el_text (e : element) : option string :=
  match e with Element _ x _ => x end.

Definition el_children (e : element) : list element :=
  match e with Element _ _ cs => cs end.

(** [root.iter()]: the element and its descendants in document order. *)
Fixpoint iter (e : element) : list element :=
  match e with
  | Element _ _ cs =>
      e :: (fix go (l : list element) : list element :=
              match l with
              | [] => []
              | c :: l' => (iter c ++ go l')%list
              end) cs
  end.

Definition ValueError : PyError := Raise "ValueError".
Definition IndexError : PyError := Raise "IndexError".

Definition parse_oasis_error_xml
    (fromstring : list byte -> PyResult element) (upper : string -> string)
    (raw_bytes : list byte) : PyResult (option string * option string) :=
  root <-- fromstring raw_bytes ;;
  ret (fold_left
         (fun (acc : option string * option string) (elem : element) =>
            let tag := upper (_strip_ns (el_tag elem)) in
            if String.eqb tag "ERR_CODE" then (el_text elem, snd acc)
            else if String.eqb tag "ERR_DESC" then (fst acc, el_text elem)
            else acc)
         (iter root) (None, None)).

Definition parse_oasis_xml
    (fromstring : list byte -> PyResult element) (upper strip : string -> string)
    (raw_bytes : list byte) : PyResult (list (gmap string string)) :=
  root <-- fromstring raw_bytes ;;
  let report_rows :=
    List.filter (fun elem => String.eqb (upper (_strip_ns (el_tag elem))) "REPORT_DATA")
      (iter root) in
  match report_rows with
  | [] => inl ValueError
  | _ =>
      ret (map (fun rpt =>
                  fold_left
                    (fun (row : gmap string string) (child : element) =>
                       <[upper (_strip_ns (el_tag child))
                         := strip (default EmptyString (el_text child))]> row)
                    (el_children rpt) ∅)
             report_rows)
  end.

(** [s.endswith(suffix)]. *)
Definition str_endswith (suffix s : string) : bool :=
  let n := String.length s in
  let k := String.length suffix in
  if (k <=? n)%nat then String.eqb (substring (n - k) k s) suffix else false.

(** What [read_oasis_zip] prints. *)
Inductive zip_message : Type :=
| OASIS_ERROR (fname : string) (code desc : option string)
| XML_PARSE_ERROR (fname : string) (e : PyError)
| CSV_PARSE_ERROR (fname : string) (e : PyError)
| WARN_no_usable_data.

(** The loop of [read_oasis_zip] over the members of the archive, each a file
    name and its content; [dfs] collects the frames and [out] what was
    printed. *)
Fixpoint read_members
    (fromstring : list byte -> PyResult element)
    (read_csv : list byte -> PyResult (list (gmap string string)))
    (upper lower strip : string -> string)
    (members : list (string * list byte))
    (dfs : list (list (gmap string string))) (out : list zip_message)
  : list zip_message * PyResult (list (list (gmap string string))) :=
  match members with
  | [] => (out, ret dfs)
  | (fname, raw) :: rest =>
      let continue := read_members fromstring read_csv upper lower strip rest in
      if negb (str_endswith ".csv" (lower fname) || str_endswith ".xml" (lower fname)) then
        continue dfs out
      else if is_xml_file raw then
        if xml_contains_error raw then
          match parse_oasis_error_xml fromstring upper raw with
          | inl e => (out, inl e)
          | inr (code, desc) => continue dfs (out ++ [OASIS_ERROR fname code desc])%list
          end
        else
          match parse_oasis_xml fromstring upper strip raw with
          | inl e => continue dfs (out ++ [XML_PARSE_ERROR fname e])%list
          | inr df => continue (dfs ++ [df])%list out
          end
      else
        match read_csv raw with
        | inl e => continue dfs (out ++ [CSV_PARSE_ERROR fname e])%list
        | inr df => continue (dfs ++ [df])%list out
        end
  end.

Definition read_oasis_zip
    (fromstring : list byte -> PyResult element)
    (read_csv : list byte -> PyResult (list (gmap string string)))
    (upper lower strip : string -> string)
    (members : list (string * list byte))
  : list zip_message * PyResult (list (gmap string string)) :=
  match read_members fromstring read_csv upper lower strip members [] [] with
  | (out, inl e) => (out, inl e)
  | (out, inr []) => ((out ++ [WARN_no_usable_data])%list, ret [])
  | (out, inr dfs) => (out, ret (concat dfs))
  end.

(** ** The OASIS interface: a date range in weekly requests

    The start and the end of the range are midnights, as the documented
    format [YYYYMMDDT00:00-0000] has them, and are counted in days since
    1970-01-01, a Thursday.  The request of one window, [fetch_caiso_week],
    is an argument of the model; a frame is the list of its rows. *)

(** [pd.date_range(start, end, freq="W")]: the Sundays from [start_date] to
    [end_date], both included. *)
Definition weekly_range (start_date end_date : Z) : list Z :=
  let first := (start_date + (3 - start_date) mod 7)%Z in
  if (first <=? end_date)%Z then
    map (fun k => (first + 7 * Z.of_nat k)%Z)
      (seq 0 (Z.to_nat ((end_date - first) / 7 + 1)))
  else [].

Section Weekly.

Context {Row : Type}.

(** What [get_historical_caiso_lmp] does besides computing: a sleep, a
    request for a window of days, and a save of the rows fetched so far. *)
Inductive event : Type :=
| Sleep (seconds : Z)
| Fetch (start_date end_date : Z)
| Save (rows : list Row).

Variable fetch_caiso_week : Z -> Z -> PyResult (list Row).

(** [weekly_data.append(fetch_caiso_week(node, s, e))]. *)
Definition append_week (s e : Z) (weekly_data : list (list Row)) (trace : list event)
  : list event * PyResult (list (list Row)) :=
  match fetch_caiso_week s e with
  | inl err => ((trace ++ [Fetch s e])%list, inl err)
  | inr df => ((trace ++ [Fetch s e])%list, ret (weekly_data ++ [df])%list)
  end.

(** The loop over [range(len(date_range) - 1)]. *)
Fixpoint weekly_loop (sleep_time : Z) (periodic_save : bool) (date_range : list Z)
    (weekly_data : list (list Row)) (trace : list event)
  : list event * PyResult (list (list Row)) :=
  match date_range with
  | start_week :: ((end_week :: _) as rest) =>
      match append_week start_week end_week weekly_data
              (trace ++ [Sleep sleep_time])%list with
      | (trace', inl err) => (trace', inl err)
      | (trace', inr weekly_data') =>
          weekly_loop sleep_time periodic_save rest weekly_data'
            (if periodic_save then (trace' ++ [Save (concat weekly_data')])%list
             else trace')
      end
  | _ => (trace, ret weekly_data)
  end.

Definition get_historical_caiso_lmp
    (start_date end_date : Z) (sleep_time : Z) (periodic_save : bool)
  : list event * PyResult (list Row) :=
  if (7 <? end_date - start_date)%Z then
    let date_range := weekly_range start_date end_date in
    match date_range with
    | [] => ([], inl IndexError)
    | first :: _ =>
        let head :=
          if (first =? start_date)%Z then ([], ret [])
          else append_week start_date first [] [] in
        match head with
        | (trace, inl err) => (trace, inl err)
        | (trace, inr weekly_data) =>
            match weekly_loop sleep_time periodic_save date_range weekly_data trace with
            | (trace', inl err) => (trace', inl err)
            | (trace', inr weekly_data') =>
                let last := List.last date_range first in
                if (last =? end_date)%Z then (trace', ret (concat weekly_data'))
                else
                  match append_week last end_date weekly_data'
                          (trace' ++ [Sleep sleep_time])%list with
                  | (trace'', inl err) => (trace'', inl err)
                  | (trace'', inr weekly_data'') => (trace'', ret (concat weekly_data''))
                  end
            end
        end
    end
  else
    match fetch_caiso_week start_date end_date with
    | inl err => ([Fetch start_date end_date], inl err)
    | inr df => ([Fetch start_date end_date], ret df)
    end.

(** The windows requested, in order. *)
Definition windows (trace : list event) : list (Z * Z) :=
  omap (fun ev => match ev with Fetch s e => Some (s, e) | _ => None end) trace.

(** The rows that the requests of the windows give, in order. *)
Definition fetched (ws : list (Z * Z)) : list Row :=
  flat_map (fun w => match fetch_caiso_week (fst w) (snd w) with
                     | inr df => df
                     | inl _ => []
                     end) ws.

(** Every request but a first event comes right after a sleep of
    [sleep_time] seconds. *)
Fixpoint paced (sleep_time : Z) (trace : list event) : Prop :=
  match trace with
  | [] => True
  | ev :: rest =>
      match rest with
      | Fetch _ _ :: _ => ev = Sleep sleep_time
      | _ => True
      end /\ paced sleep_time rest
  end.

End Weekly.

Arguments event : clear implicits.

(** Windows of at most a week that follow each other from [s] to [e]. *)
Fixpoint tiles (s e : Z) (ws : list (Z * Z)) : Prop :=
  match ws with
  | [] => s = e
  | (a, b) :: rest => a = s /\ (a < b)%Z /\ (b - a <= 7)%Z /\ tiles b e rest
  end.

(** The pairs of neighbours of a list. *)
Fixpoint pairs (l : list Z) : list (Z * Z) :=
  match l with
  | a :: ((b :: _) as rest) => (a, b) :: pairs rest
  | _ => []
  end.

(** ** Theorems *)

Example demo_build :
  battery_model_build demo_ts demo_scalar = inr (demo_linear None).
Proof. reflexivity. Qed.

Example demo_build_no_eff :
  battery_model_no_eff_build demo_ts demo_scalar = inr (demo_mixed None).
Proof. reflexivity. Qed.

(** *** What [build] stores *)

Lemma col_inr (frame : gmap string R) (name : string) (v : R) :
  col frame name = inr v -> frame !! name = Some v.
Proof.
  unfold col. destruct (frame !! name); intros H; inversion H; reflexivity.
Qed.

Lemma bind_inr {A B : Type} (c : PyResult A) (k : A -> PyResult B) (y : B) :
  bind c k = inr y -> exists x, c = inr x /\ k x = inr y.
Proof.
  destruct c as [e | x]; simpl; intros H; [discriminate | eauto].
Qed.

Ltac bind_inv H :=
  repeat
    (let x := fresh "x" in
     let Hx := fresh "Hx" in
     apply bind_inr in H; destruct H as (x & Hx & H)).

Lemma build_spec (dv : list (VarName * Domain)) (rules : list Rule)
    (input_ts : gmap Z ts_row) (input_scalar : gmap string R) (m : ConcreteModel) :
  build dv rules input_ts input_scalar = inr m ->
  vars m = dv /\ constraints m = rules /\ loaded m = None /\
  len_t (params m) = size input_ts /\
  input_scalar !! "Capacity (MWh)" = Some (Emax (params m)) /\
  input_scalar !! "Time Step (hours)" = Some (delta_t (params m)) /\
  input_scalar !! "One-Way Conversion Efficiency (%)" = Some (eta_conv (params m)) /\
  input_scalar !! "Self-Discharge (%/hr)" = Some (eta_self (params m)) /\
  ((0 < size input_ts)%nat ->
   input_scalar !! "Starting/Ending SOC" = Some (SOC_start (params m))).
Proof.
  unfold build. intros H. bind_inv H.
  inversion H; subst m; clear H; simpl.
  repeat match goal with
         | Hc : col _ _ = inr _ |- _ => apply col_inr in Hc
         end.
  repeat split; try assumption.
  intros Hpos. destruct (size input_ts =? 0)%nat eqn:E.
  - apply Nat.eqb_eq in E. lia.
  - apply col_inr in Hx8. exact Hx8.
Qed.

Lemma built_cases (input_ts : gmap Z ts_row) (input_scalar : gmap string R)
    (m : ConcreteModel) :
  battery_model_build input_ts input_scalar = inr m \/
  battery_model_no_eff_build input_ts input_scalar = inr m ->
  In storage_state_rule (constraints m) /\
  In boundary_conditions_rule (constraints m) /\
  len_t (params m) = size input_ts /\
  input_scalar !! "Capacity (MWh)" = Some (Emax (params m)) /\
  input_scalar !! "Time Step (hours)" = Some (delta_t (params m)) /\
  input_scalar !! "One-Way Conversion Efficiency (%)" = Some (eta_conv (params m)) /\
  input_scalar !! "Self-Discharge (%/hr)" = Some (eta_self (params m)) /\
  ((0 < size input_ts)%nat ->
   input_scalar !! "Starting/Ending SOC" = Some (SOC_start (params m))).
Proof.
  intros [H | H]; apply build_spec in H;
    destruct H as (_ & Hc & _ & Hn & HE & Hd & Hec & Hes & Hs);
    rewrite Hc; simpl; tauto.
Qed.

Lemma solve_and_return_spec (solver : Solver) (m m' : ConcreteModel)
    (res : SolverResults) :
  solve_and_return solver m = inr (m', res) ->
  params m' = params m /\ vars m' = vars m /\ constraints m' = constraints m /\
  solver m = inr (res, loaded m').
Proof.
  unfold solve_and_return. intros H. bind_inv H.
  inversion H; subst; simpl. destruct x; auto.
Qed.

Lemma feasible_ext (m m' : ConcreteModel) (a : Assignment) :
  params m' = params m -> vars m' = vars m -> constraints m' = constraints m ->
  feasible m' a -> feasible m a.
Proof.
  unfold feasible. intros Hp Hv Hc H t Ht.
  rewrite <- Hp, <- Hv, <- Hc. apply H. rewrite Hp. exact Ht.
Qed.

(** *** State of charge *)

(** C1.  In both formulations every feasible assignment satisfies
    [S[0] = SOC_start] and, at every later index [t] of the horizon,
    [S[t] = S[t-1]*(1 - eta_self*dt) + (dt/Emax)*(P_c[t-1]*eta_conv - P_d[t-1]/eta_conv)],
    with the scalars read from [input_scalar]. *)
Theorem storage_state_recurrence
    (input_ts : gmap Z ts_row) (input_scalar : gmap string R)
    (m : ConcreteModel) (a : Assignment) (t : nat)
    (E dt eta_c eta_s soc : R) :
  battery_model_build input_ts input_scalar = inr m \/
  battery_model_no_eff_build input_ts input_scalar = inr m ->
  input_scalar !! "Capacity (MWh)" = Some E ->
  input_scalar !! "Time Step (hours)" = Some dt ->
  input_scalar !! "One-Way Conversion Efficiency (%)" = Some eta_c ->
  input_scalar !! "Self-Discharge (%/hr)" = Some eta_s ->
  input_scalar !! "Starting/Ending SOC" = Some soc ->
  feasible m a ->
  (t < size input_ts)%nat ->
  (t = 0%nat -> a S t = soc) /\
  ((0 < t)%nat ->
   a S t = a S (t - 1)%nat * (1 - eta_s * dt)
           + dt / E * (a P_c (t - 1)%nat * eta_c - a P_d (t - 1)%nat / eta_c)).
Proof.
  intros Hb HE Hdt Hec Hes Hsoc Hf Ht.
  apply built_cases in Hb.
  destruct Hb as (Hin & _ & Hn & HE' & Hdt' & Hec' & Hes' & Hs').
  assert (Hs : input_scalar !! "Starting/Ending SOC" = Some (SOC_start (params m)))
    by (apply Hs'; lia).
  rewrite HE in HE'. rewrite Hdt in Hdt'. rewrite Hec in Hec'.
  rewrite Hes in Hes'. rewrite Hsoc in Hs.
  inversion HE'; inversion Hdt'; inversion Hec'; inversion Hes'; inversion Hs.
  destruct (Hf t) as [_ Hr]; [lia |].
  specialize (Hr _ Hin). unfold storage_state_rule in Hr.
  split.
  - intros ->. exact Hr.
  - intros Hpos. destruct (t =? 0)%nat eqn:E0.
    + apply Nat.eqb_eq in E0. lia.
    + exact Hr.
Qed.

(** *** Exclusive charge and discharge *)

(** C2.  In the mixed-integer formulation a feasible assignment never charges
    and discharges in the same interval. *)
Theorem charge_discharge_exclusive
    (input_ts : gmap Z ts_row) (input_scalar : gmap string R)
    (m : ConcreteModel) (a : Assignment) (t : nat) :
  battery_model_no_eff_build input_ts input_scalar = inr m ->
  feasible m a ->
  (t < size input_ts)%nat ->
  (0 < a P_c t -> a P_d t = 0) /\ (0 < a P_d t -> a P_c t = 0).
Proof.
  intros Hb Hf Ht. apply build_spec in Hb.
  destruct Hb as (Hv & Hc & _ & Hn & _).
  destruct (Hf t) as [Hd Hr]; [lia |].
  rewrite Hv in Hd. rewrite Hc in Hr.
  assert (Hu := Hd u Binary). assert (Hpd := Hd P_d NonNegativeReals).
  assert (Hpc := Hd P_c NonNegativeReals).
  assert (Hc1 := Hr MixedInteger.max_charge_power_rule).
  assert (Hc2 := Hr MixedInteger.max_discharge_power_rule).
  simpl in Hu, Hpd, Hpc, Hc1, Hc2.
  assert (Hu' : a u t = 0 \/ a u t = 1) by (apply Hu; tauto).
  assert (0 <= a P_d t) by (apply Hpd; tauto).
  assert (0 <= a P_c t) by (apply Hpc; tauto).
  assert (a P_c t <= P_c_max (params m) * a u t) by (apply Hc1; tauto).
  assert (a P_d t <= P_d_max (params m) * (1 - a u t)) by (apply Hc2; tauto).
  destruct Hu' as [U | U]; rewrite U in *; split; intros; lra.
Qed.

(** *** Boundary condition *)

(** C3.  When either model function returns from an optimal solve whose
    loaded values are feasible for the model (the contract of the solver),
    the state of charge equals the supplied starting/ending value at the
    first and at the last index of the horizon. *)
Theorem boundary_state_of_charge
    (solver : Solver) (input_ts : gmap Z ts_row) (input_scalar : gmap string R)
    (m : ConcreteModel) (results : SolverResults) (a : Assignment) (soc : R) :
  battery_model solver input_ts input_scalar = inr (m, results) \/
  battery_model_no_eff solver input_ts input_scalar = inr (m, results) ->
  termination_condition results = optimal ->
  loaded m = Some a ->
  feasible m a ->
  (0 < size input_ts)%nat ->
  input_scalar !! "Starting/Ending SOC" = Some soc ->
  a S 0%nat = soc /\ a S (size input_ts - 1)%nat = soc.
Proof.
  intros Hb _ _ Hf Hpos Hsoc.
  assert (exists m0,
             (battery_model_build input_ts input_scalar = inr m0 \/
              battery_model_no_eff_build input_ts input_scalar = inr m0) /\
             params m = params m0 /\ vars m = vars m0 /\
             constraints m = constraints m0) as (m0 & Hb0 & Hp & Hv & Hc).
  { destruct Hb as [H | H]; unfold battery_model, battery_model_no_eff in H;
      apply bind_inr in H; destruct H as (m0 & H0 & H);
      apply solve_and_return_spec in H; exists m0; tauto. }
  apply built_cases in Hb0.
  destruct Hb0 as (Hin & Hbd & Hn & _ & _ & _ & _ & Hs).
  specialize (Hs Hpos). rewrite Hsoc in Hs. inversion Hs as [Hs'].
  rewrite <- Hc in Hin, Hbd. rewrite <- Hp in *.
  split.
  - destruct (Hf 0%nat) as [_ Hr]; [lia |].
    exact (Hr _ Hin).
  - destruct (Hf (size input_ts - 1)%nat) as [_ Hr]; [lia |].
    specialize (Hr _ Hbd). unfold boundary_conditions_rule in Hr.
    rewrite Hn, Nat.eqb_refl in Hr. exact Hr.
Qed.

(** *** Solver status *)

(** C5, as the code has it.  Neither model function inspects the solver's
    status: when the model is built, whatever results the solver returns are
    returned with the model, and an exception is raised exactly when the
    solver call raises it, unchanged. *)
Theorem solver_outcome_passed_through
    (solver : Solver) (input_ts : gmap Z ts_row) (input_scalar : gmap string R)
    (m : ConcreteModel) :
  (battery_model_build input_ts input_scalar = inr m ->
   match solver m with
   | inr (results, values) =>
       battery_model solver input_ts input_scalar
       = inr ({| params := params m; vars := vars m;
                 constraints := constraints m; loaded := values |}, results)
   | inl e => battery_model solver input_ts input_scalar = inl e
   end) /\
  (battery_model_no_eff_build input_ts input_scalar = inr m ->
   match solver m with
   | inr (results, values) =>
       battery_model_no_eff solver input_ts input_scalar
       = inr ({| params := params m; vars := vars m;
                 constraints := constraints m; loaded := values |}, results)
   | inl e => battery_model_no_eff solver input_ts input_scalar = inl e
   end).
Proof.
  split; intros Hb; unfold battery_model, battery_model_no_eff; rewrite Hb; simpl;
    unfold solve_and_return; destruct (solver m) as [e | [results values]];
    reflexivity.
Qed.

(** The claim of C5 fails on the worked horizon: with a solver that reports
    an infeasible problem the function returns the model and the results, and
    with a solver that raises its own [RuntimeError] that exception, not an
    [InfeasibleError], reaches the caller. *)
Lemma infeasible_status_is_returned :
  battery_model (reports infeasible None) demo_ts demo_scalar
  = inr (demo_linear None, {| termination_condition := infeasible |}) /\
  battery_model_no_eff (reports infeasible None) demo_ts demo_scalar
  = inr (demo_mixed None, {| termination_condition := infeasible |}) /\
  battery_model (raises "RuntimeError") demo_ts demo_scalar
  = inl (Raise "RuntimeError") /\
  battery_model (raises "RuntimeError") demo_ts demo_scalar
  <> inl (Raise "InfeasibleError").
Proof.
  repeat split; try reflexivity. discriminate.
Qed.

(** *** The worked horizon *)

Ltac each_index t Ht :=
  destruct t as [| [| [| t]]]; [| | | simpl in Ht; lia].

Ltac each_member H :=
  simpl in H;
  repeat match type of H with
         | _ \/ _ => destruct H as [H | H]
         | False => destruct H
         end.

Ltac eval_rule :=
  cbv [power_balance_rule storage_state_rule storage_power_rule
       boundary_conditions_rule soc_min_rule soc_max_rule
       Linear.max_charge_power_rule Linear.max_discharge_power_rule
       MixedInteger.max_charge_power_rule MixedInteger.max_discharge_power_rule
       holds demo_linear demo_mixed params demo_params P_l LMP
       discharge_first charge_first];
  simpl; first [exact I | lra].

Lemma discharge_first_feasible (values : option Assignment) :
  feasible (demo_linear values) discharge_first /\
  feasible (demo_mixed values) discharge_first.
Proof.
  split; intros t Ht; each_index t Ht; split.
  all: try (intros v d H; each_member H; inversion H; subst; simpl; lra).
  all: intros rule H; each_member H; subst; eval_rule.
Qed.

Lemma charge_first_feasible (values : option Assignment) :
  feasible (demo_linear values) charge_first /\
  feasible (demo_mixed values) charge_first.
Proof.
  split; intros t Ht; each_index t Ht; split.
  all: try (intros v d H; each_member H; inversion H; subst; simpl; lra).
  all: intros rule H; each_member H; subst; eval_rule.
Qed.

Lemma storage_state_recurrence_witness :
  (1%nat = 0%nat -> discharge_first S 1%nat = 1 / 2) /\
  ((0 < 1)%nat ->
   discharge_first S 1%nat
   = discharge_first S (1 - 1)%nat * (1 - 0 * 24)
     + 24 / 48 * (discharge_first P_c (1 - 1)%nat * (9 / 10)
                  - discharge_first P_d (1 - 1)%nat / (9 / 10))).
Proof.
  apply (storage_state_recurrence demo_ts demo_scalar (demo_mixed None)
           discharge_first 1%nat 48 24 (9 / 10) 0 (1 / 2)).
  - right. reflexivity.
  - reflexivity.
  - reflexivity.
  - reflexivity.
  - reflexivity.
  - reflexivity.
  - apply discharge_first_feasible.
  - vm_compute. lia.
Defined.

Lemma charge_discharge_exclusive_witness :
  (0 < charge_first P_c 0%nat -> charge_first P_d 0%nat = 0) /\
  (0 < charge_first P_d 0%nat -> charge_first P_c 0%nat = 0).
Proof.
  apply (charge_discharge_exclusive demo_ts demo_scalar (demo_mixed None)).
  - reflexivity.
  - apply charge_first_feasible.
  - vm_compute. lia.
Defined.

Lemma boundary_state_of_charge_witness :
  charge_first S 0%nat = 1 / 2 /\ charge_first S (size demo_ts - 1)%nat = 1 / 2.
Proof.
  apply (boundary_state_of_charge (reports optimal (Some charge_first))
           demo_ts demo_scalar (demo_linear (Some charge_first))
           {| termination_condition := optimal |}).
  - left. reflexivity.
  - reflexivity.
  - reflexivity.
  - apply charge_first_feasible.
  - vm_compute. lia.
  - reflexivity.
Defined.

Lemma solver_outcome_passed_through_witness :
  battery_model (reports otherTermination None) demo_ts demo_scalar
  = inr (demo_linear None, {| termination_condition := otherTermination |}).
Proof.
  exact (proj1 (solver_outcome_passed_through (reports otherTermination None)
                  demo_ts demo_scalar (demo_linear None)) eq_refl).
Defined.

(** *** Result extraction *)

Lemma extract_results_length (m : ConcreteModel) (input_ts : gmap Z ts_row)
    (df : list df_row) :
  extract_results m input_ts = inr df -> length df = len_t (params m).
Proof.
  unfold extract_results, ret. intros H. inversion H.
  rewrite length_map, length_seq. reflexivity.
Qed.

(** C8, as the code has it.  Extraction never raises: it returns one row per
    index of the model's horizon, and row [t] carries the values of the
    variables at [t] next to the timestamp, price and load of the row of
    [input_ts] labelled [t], or missing values when [input_ts] has no such
    row. *)
Theorem extract_results_joins_on_label
    (m : ConcreteModel) (input_ts : gmap Z ts_row) (t : nat) :
  (t < len_t (params m))%nat ->
  exists (df : list df_row) (row : df_row),
    extract_results m input_ts = inr df /\
    length df = len_t (params m) /\
    nth_error df t = Some row /\
    c_P_d row = var_value m P_d t /\
    c_P_c row = var_value m P_c t /\
    c_S row = var_value m S t /\
    c_P_m row = var_value m P_m t /\
    c_u row = var_value m u t /\
    c_time row = row_INTERVAL_START <$> input_ts !! Z.of_nat t /\
    c_LMP row = row_LMP <$> input_ts !! Z.of_nat t /\
    c_load row = row_load <$> input_ts !! Z.of_nat t.
Proof.
  intros Ht. unfold extract_results, ret.
  eexists. eexists. split; [reflexivity |].
  split; [rewrite length_map, length_seq; reflexivity |].
  split.
  - rewrite nth_error_map, nth_error_seq.
    destruct (Nat.ltb_spec t (len_t (params m))); [reflexivity | lia].
  - simpl. repeat split; reflexivity.
Qed.

Lemma extract_results_joins_on_label_witness :
  exists (df : list df_row) (row : df_row),
    extract_results (demo_mixed (Some discharge_first)) short_ts = inr df /\
    length df = 3%nat /\
    nth_error df 1 = Some row /\
    c_P_d row = Some 0 /\
    c_P_c row = Some (5 / 9) /\
    c_S row = Some (1 / 4) /\
    c_P_m row = Some (2 + 5 / 9) /\
    c_u row = Some 1 /\
    c_time row = None /\
    c_LMP row = None /\
    c_load row = None.
Proof.
  apply (extract_results_joins_on_label (demo_mixed (Some discharge_first))
           short_ts 1%nat).
  simpl. lia.
Defined.

(** The claim of C8 fails on the worked horizon: a three-interval solution
    extracted against a one-row time series gives a three-row table whose
    last two rows have no timestamp, price or load, and no [AlignmentError]. *)
Lemma short_series_is_not_rejected :
  size short_ts <> len_t (params (demo_mixed (Some discharge_first))) /\
  extract_results (demo_mixed (Some discharge_first)) short_ts
  <> inl (Raise "AlignmentError") /\
  extract_results (demo_mixed (Some discharge_first)) short_ts
  = inr [ {| c_P_d := Some (9 / 20); c_P_c := Some 0; c_S := Some (1 / 2);
             c_P_m := Some (2 - 9 / 20); c_u := Some 0;
             c_time := Some 0%Z; c_LMP := Some 10; c_load := Some 2 |};
          {| c_P_d := Some 0; c_P_c := Some (5 / 9); c_S := Some (1 / 4);
             c_P_m := Some (2 + 5 / 9); c_u := Some 1;
             c_time := None; c_LMP := None; c_load := None |};
          {| c_P_d := Some 0; c_P_c := Some 0; c_S := Some (1 / 2);
             c_P_m := Some 2; c_u := Some 0;
             c_time := None; c_LMP := None; c_load := None |} ].
Proof.
  split; [vm_compute; lia |]. split; [discriminate | reflexivity].
Qed.

(** *** Profit columns *)

Lemma calculate_profit_spec (m : ConcreteModel) (input_ts : gmap Z ts_row)
    (finance_inputs : gmap string R)
    (df : list result_row) (npv : R) (daily : list daily_row) :
  calculate_profit m input_ts finance_inputs = inr (df, npv, daily) ->
  exists (df_out : list df_row) (time_step r i : R),
    extract_results m input_ts = inr df_out /\
    finance_inputs !! "Time Step (hours)" = Some time_step /\
    finance_inputs !! "Real Discount Rate (%)" = Some r /\
    finance_inputs !! "Inflation Rate (%)" = Some i /\
    df = map (profit_columns time_step) df_out /\
    daily = map (discount (Rpower (1 + ((1 + r) * (1 + i) - 1)) (1 / 365) - 1)
                          (default 0%Z (ts_min (timestamps df))))
                (resample_D_sum df) /\
    npv = Series_sum (map (fun d => Some (discounted_profit d)) daily).
Proof.
  unfold calculate_profit. intros H. bind_inv H.
  inversion H; subst; clear H.
  repeat match goal with
         | Hc : col _ _ = inr _ |- _ => apply col_inr in Hc
         end.
  eauto 12.
Qed.


(** C10.  On every row of the result table whose cells are present and
    satisfy the power balance [P_m = P_c - P_d + load], the battery profit is
    [-price * (P_c - P_d) * dt]; the load does not occur in it. *)
Theorem battery_profit_of_balanced_row
    (m : ConcreteModel) (input_ts : gmap Z ts_row) (finance_inputs : gmap string R)
    (df : list result_row) (npv : R) (daily : list daily_row)
    (dt : R) (row : result_row) (price ld pm pc pd : R) :
  calculate_profit m input_ts finance_inputs = inr (df, npv, daily) ->
  finance_inputs !! "Time Step (hours)" = Some dt ->
  In row df ->
  c_LMP (base row) = Some price ->
  c_load (base row) = Some ld ->
  c_P_m (base row) = Some pm ->
  c_P_c (base row) = Some pc ->
  c_P_d (base row) = Some pd ->
  pm = pc - pd + ld ->
  battery_profit row = Some (- price * (pc - pd) * dt).
Proof.
  intros H Hdt Hin Hp Hl Hm Hc Hd Hbal.
  apply calculate_profit_spec in H.
  destruct H as (df_out & dt' & r & i & _ & Hdt' & _ & _ & Hdf & _).
  rewrite Hdt in Hdt'. inversion Hdt'; subst dt'. subst df.
  apply in_map_iff in Hin. destruct Hin as (r0 & <- & _).
  simpl in *. rewrite Hp, Hl, Hm. simpl. f_equal. subst pm. ring.
Qed.

(** *** Daily sums *)

Lemma Series_sum_Some (l : list R) : Series_sum (map Some l) = Rsum l.
Proof.
  induction l as [| x l IH]; simpl; [reflexivity | rewrite IH; reflexivity].
Qed.

Lemma ts_min_spec (l : list Z) (s : Z) :
  ts_min l = Some s -> In s l /\ forall x, In x l -> (s <= x)%Z.
Proof.
  destruct l as [| x0 l]; simpl; [discriminate |].
  intros H. inversion H; subst s; clear H.
  induction l as [| y l IH]; simpl.
  - split; [left; reflexivity |]. intros x [Hx | []]. lia.
  - destruct IH as [Hin Hle]. split.
    + destruct (Z.min_spec y (fold_right Z.min x0 l)) as [[_ ->] | [_ ->]].
      * right; left; reflexivity.
      * destruct Hin as [Hin | Hin]; [left; exact Hin | right; right; exact Hin].
    + intros x [Hx | [Hx | Hx]].
      * pose proof (Hle x (or_introl Hx)). lia.
      * lia.
      * pose proof (Hle x (or_intror Hx)). lia.
Qed.

Lemma ts_max_spec (l : list Z) (s : Z) :
  ts_max l = Some s -> In s l /\ forall x, In x l -> (x <= s)%Z.
Proof.
  destruct l as [| x0 l]; simpl; [discriminate |].
  intros H. inversion H; subst s; clear H.
  induction l as [| y l IH]; simpl.
  - split; [left; reflexivity |]. intros x [Hx | []]. lia.
  - destruct IH as [Hin Hle]. split.
    + destruct (Z.max_spec y (fold_right Z.max x0 l)) as [[_ ->] | [_ ->]].
      * destruct Hin as [Hin | Hin]; [left; exact Hin | right; right; exact Hin].
      * right; left; reflexivity.
    + intros x [Hx | [Hx | Hx]].
      * pose proof (Hle x (or_introl Hx)). lia.
      * lia.
      * pose proof (Hle x (or_intror Hx)). lia.
Qed.

Lemma ts_min_max_some (l : list Z) (x : Z) :
  In x l -> exists lo hi, ts_min l = Some lo /\ ts_max l = Some hi.
Proof.
  destruct l; simpl; [intros [] | eauto].
Qed.

Lemma in_day_range (lo hi d : Z) :
  In d (day_range lo hi) <-> (lo <= d <= hi)%Z.
Proof.
  unfold day_range. rewrite in_map_iff. split.
  - intros (i & <- & Hi). apply in_seq in Hi. lia.
  - intros Hd. exists (Z.to_nat (d - lo)). split; [lia |].
    apply in_seq. lia.
Qed.

Lemma in_timestamps (rows : list result_row) (ts : Z) :
  In ts (timestamps rows) <-> exists r, In r rows /\ c_time (base r) = Some ts.
Proof.
  unfold timestamps. induction rows as [| r rows IH]; simpl.
  - split; [intros [] | intros (r & [] & _)].
  - destruct (c_time (base r)) as [ts0 |] eqn:E; simpl.
    + rewrite IH. split.
      * intros [<- | (r' & Hin & Hr')]; eauto.
      * intros (r' & [<- | Hin] & Hr'); [left; congruence | right; eauto].
    + rewrite IH. split.
      * intros (r' & Hin & Hr'); eauto.
      * intros (r' & [<- | Hin] & Hr'); [congruence | eauto].
Qed.

Lemma ns_per_day_pos : (0 < ns_per_day)%Z.
Proof. reflexivity. Qed.

Lemma date_of_mono (x y : Z) : (x <= y)%Z -> (date_of x <= date_of y)%Z.
Proof.
  intros H. unfold date_of. apply Z.div_le_mono; [exact ns_per_day_pos | exact H].
Qed.

(** The sum taken by [resample] over a bin is the day total of the
    specification. *)
Lemma day_total_agrees (d : Z) (rows : list result_row) :
  Series_sum (map battery_profit (List.filter (on_date d) rows)) = spec_day_total d rows.
Proof.
  induction rows as [| r rows IH]; simpl; [reflexivity |].
  destruct (c_time (base r)) as [ts |] eqn:Et.
  - assert (Hon : on_date d r = (ts / ns_per_day =? d)%Z)
      by (unfold on_date, date_of; rewrite Et; reflexivity).
    rewrite Hon. destruct (ts / ns_per_day =? d)%Z; simpl.
    + destruct (battery_profit r); rewrite IH; reflexivity.
    + destruct (battery_profit r); exact IH.
  - assert (Hon : on_date d r = false)
      by (unfold on_date; rewrite Et; reflexivity).
    rewrite Hon. exact IH.
Qed.



(** *** Discounting *)

Lemma npv_as_sum (daily : list daily_row) :
  Series_sum (map (fun d => Some (discounted_profit d)) daily)
  = Rsum (map discounted_profit daily).
Proof.
  rewrite <- Series_sum_Some, map_map. reflexivity.
Qed.


Lemma Rsum_le {A : Type} (f g : A -> R) (l : list A) :
  (forall x, In x l -> f x <= g x) -> Rsum (map f l) <= Rsum (map g l).
Proof.
  induction l as [| x l IH]; simpl; intros H; [lra |].
  assert (f x <= g x) by (apply H; left; reflexivity).
  assert (Rsum (map f l) <= Rsum (map g l)) by (apply IH; intros; apply H; right; assumption).
  unfold Rsum in *. lra.
Qed.

Lemma daily_base (B : R) : 1 + (Rpower B (1 / 365) - 1) = Rpower B (1 / 365).
Proof. ring. Qed.

Lemma Rpower_pos (x y : R) : 0 < Rpower x y.
Proof. unfold Rpower. apply exp_pos. Qed.

Lemma discounted_profit_antitone (b1 b2 p : R) (k : Z) :
  0 < b1 -> b1 <= b2 ->
  ((0 < k)%Z -> 0 <= p) ->
  ((k < 0)%Z -> p <= 0) ->
  p / powerRZ b2 k <= p / powerRZ b1 k.
Proof.
  intros Hb1 Hle Hpos Hneg.
  destruct k as [| n | n]; simpl.
  - lra.
  - assert (Hp : 0 <= p) by (apply Hpos; lia).
    assert (H1 : 0 < b1 ^ Pos.to_nat n) by (apply pow_lt; exact Hb1).
    assert (H2 : b1 ^ Pos.to_nat n <= b2 ^ Pos.to_nat n)
      by (apply pow_incr; lra).
    unfold Rdiv. apply Rmult_le_compat_l; [exact Hp |].
    apply Rinv_le_contravar; assumption.
  - assert (Hp : p <= 0) by (apply Hneg; lia).
    assert (H1 : 0 < b1 ^ Pos.to_nat n) by (apply pow_lt; exact Hb1).
    assert (H2 : b1 ^ Pos.to_nat n <= b2 ^ Pos.to_nat n)
      by (apply pow_incr; lra).
    unfold Rdiv. rewrite !Rinv_inv. nra.
Qed.

(** C7, as the code has it.  For one solved model and time series, two
    parameter sets with the same time step and inflation rate [i > -1] and
    real discount rates [-1 < r1 <= r2] give [NPV(r2) <= NPV(r1)] when no
    daily battery profit is negative at a positive day offset and none is
    positive at a negative day offset. *)
Theorem npv_non_increasing_for_later_gains
    (m : ConcreteModel) (input_ts : gmap Z ts_row)
    (f1 f2 : gmap string R) (time_step r1 r2 i : R)
    (df1 df2 : list result_row) (npv1 npv2 : R) (daily1 daily2 : list daily_row) :
  calculate_profit m input_ts f1 = inr (df1, npv1, daily1) ->
  calculate_profit m input_ts f2 = inr (df2, npv2, daily2) ->
  f1 !! "Time Step (hours)" = Some time_step ->
  f2 !! "Time Step (hours)" = Some time_step ->
  f1 !! "Real Discount Rate (%)" = Some r1 ->
  f2 !! "Real Discount Rate (%)" = Some r2 ->
  f1 !! "Inflation Rate (%)" = Some i ->
  f2 !! "Inflation Rate (%)" = Some i ->
  0 < 1 + r1 -> 0 < 1 + i -> r1 <= r2 ->
  (forall row, In row daily1 ->
     ((0 < day_of_sim row)%Z -> 0 <= daily_battery_profit row) /\
     ((day_of_sim row < 0)%Z -> daily_battery_profit row <= 0)) ->
  npv2 <= npv1.
Proof.
  intros Hc1 Hc2 Ht1 Ht2 Hr1 Hr2 Hi1 Hi2 Hr Hi Hle Hsign.
  apply calculate_profit_spec in Hc1, Hc2.
  destruct Hc1 as (out1 & t1 & r1' & i1' & He1 & Ht1' & Hr1' & Hi1' & Hdf1 & Hd1 & Hn1).
  destruct Hc2 as (out2 & t2 & r2' & i2' & He2 & Ht2' & Hr2' & Hi2' & Hdf2 & Hd2 & Hn2).
  rewrite Ht1 in Ht1'. rewrite Ht2 in Ht2'. rewrite Hr1 in Hr1'. rewrite Hr2 in Hr2'.
  rewrite Hi1 in Hi1'. rewrite Hi2 in Hi2'. rewrite He1 in He2.
  injection Ht1' as <-. injection Ht2' as <-. injection Hr1' as <-.
  injection Hr2' as <-. injection Hi1' as <-. injection Hi2' as <-.
  injection He2 as <-. subst df1 df2 daily1 daily2 npv1 npv2.
  rewrite !npv_as_sum, !map_map.
  apply Rsum_le. intros bin Hbin. simpl.
  rewrite !daily_base.
  assert (0 < (1 + r1) * (1 + i)) by nra.
  assert ((1 + r1) * (1 + i) <= (1 + r2) * (1 + i)) by nra.
  destruct (Hsign (discount (Rpower (1 + ((1 + r1) * (1 + i) - 1)) (1 / 365) - 1)
                     (default 0%Z
                        (ts_min (timestamps (map (profit_columns time_step) out1))))
                     bin)) as [Hp Hn].
  { apply in_map. exact Hbin. }
  simpl in Hp, Hn.
  apply discounted_profit_antitone; try assumption.
  - apply Rpower_pos.
  - apply Rle_Rpower_l; [lra |]. split; lra.
Qed.

(** *** Financial parameters *)

(** The computation reads three columns of [finance_inputs]: the time step,
    the real discount rate and the inflation rate; parameter sets that agree
    on the three give the same profit columns, NPV and daily table. *)
Lemma finance_inputs_read
    (m : ConcreteModel) (input_ts : gmap Z ts_row) (f1 f2 : gmap string R) :
  f1 !! "Time Step (hours)" = f2 !! "Time Step (hours)" ->
  f1 !! "Real Discount Rate (%)" = f2 !! "Real Discount Rate (%)" ->
  f1 !! "Inflation Rate (%)" = f2 !! "Inflation Rate (%)" ->
  calculate_profit m input_ts f1 = calculate_profit m input_ts f2.
Proof.
  intros H1 H2 H3. unfold calculate_profit, col.
  rewrite H1, H2, H3. reflexivity.
Qed.

(** *** The worked horizon, post-processed *)

Lemma demo_extract (a : Assignment) :
  extract_results (demo_mixed (Some a)) demo_ts = inr (demo_df_out a).
Proof. reflexivity. Qed.

Lemma demo_resample (dt : R) (a : Assignment) :
  resample_D_sum (map (profit_columns dt) (demo_df_out a)) = demo_bins dt a.
Proof. reflexivity. Qed.

Lemma demo_calculate (dt r : R) (a : Assignment) :
  calculate_profit (demo_mixed (Some a)) demo_ts (demo_finance dt r)
  = inr (map (profit_columns dt) (demo_df_out a), demo_npv dt r a, demo_daily dt r a).
Proof. reflexivity. Qed.

Lemma demo_npv_eq (dt r : R) (a : Assignment) :
  demo_npv dt r a
  = demo_battery_profit dt a 0 10
    + demo_battery_profit dt a 1 1 / Rpower (1 + r) (1 / 365)
    + demo_battery_profit dt a 2 5 / (Rpower (1 + r) (1 / 365)) ^ 2.
Proof.
  unfold demo_npv, demo_daily, demo_bins, discount, demo_rate.
  cbn [map Series_sum fold_right discounted_profit fst snd].
  change (Timedelta_days (0 - 0)) with 0%Z.
  change (Timedelta_days (ns_per_day - 0)) with 1%Z.
  change (Timedelta_days (2 * ns_per_day - 0)) with 2%Z.
  rewrite daily_base.
  replace (1 + ((1 + r) * (1 + 0) - 1)) with (1 + r) by ring.
  cbn [powerRZ].
  change (Pos.to_nat 1) with 1%nat. change (Pos.to_nat 2) with 2%nat.
  field. apply Rgt_not_eq, Rpower_pos.
Qed.

Lemma Rpower_one_base (y : R) : Rpower 1 y = 1.
Proof.
  unfold Rpower. rewrite ln_1, Rmult_0_r. apply exp_0.
Qed.

Lemma Rpower_two_above_one : 1 < Rpower 2 (1 / 365).
Proof.
  assert (H : Rpower 2 0 < Rpower 2 (1 / 365)) by (apply Rpower_lt; lra).
  rewrite Rpower_O in H by lra. exact H.
Qed.

(** The first day's offset is [-1] when the earliest timestamp is 18:00. *)
Example offset_of_a_first_day_starting_at_1800 :
  Timedelta_days (0 * ns_per_day - 64800000000000) = (-1)%Z.
Proof. reflexivity. Qed.

(** In calendar days: the offset of day [d] is its distance from the day of
    the earliest timestamp, less one when that timestamp is not a midnight. *)
Lemma Timedelta_days_of_midnight (d start : Z) :
  Timedelta_days (d * ns_per_day - start)
  = (d - date_of start - (if (start mod ns_per_day =? 0)%Z then 0 else 1))%Z.
Proof.
  unfold Timedelta_days, date_of.
  pose proof ns_per_day_pos as Hn.
  pose proof (Z.div_mod start ns_per_day ltac:(lia)) as Hdm.
  pose proof (Z.mod_pos_bound start ns_per_day Hn) as Hb.
  destruct (Z.eqb_spec (start mod ns_per_day) 0) as [E | E].
  - symmetry. apply Z.div_unique with (r := 0%Z); [lia |]. nia.
  - symmetry.
    apply Z.div_unique with (r := (ns_per_day - start mod ns_per_day)%Z); [lia |].
    nia.
Qed.

(** The claim of C7 fails on the worked horizon with the schedule that
    discharges on the first day and recharges on the second: the daily
    battery profits are 108, -40/3 and 0, the NPV at a real discount rate of
    0 is 284/3, and at the higher rate of 1 it is larger. *)
Lemma higher_rate_raises_npv :
  calculate_profit (demo_mixed (Some discharge_first)) demo_ts (demo_finance 24 0)
  = inr (map (profit_columns 24) (demo_df_out discharge_first),
         demo_npv 24 0 discharge_first, demo_daily 24 0 discharge_first) /\
  calculate_profit (demo_mixed (Some discharge_first)) demo_ts (demo_finance 24 1)
  = inr (map (profit_columns 24) (demo_df_out discharge_first),
         demo_npv 24 1 discharge_first, demo_daily 24 1 discharge_first) /\
  map daily_battery_profit (demo_daily 24 0 discharge_first)
  = [108 + 0; - (40 / 3) + 0; 0 + 0] /\
  demo_npv 24 0 discharge_first = 284 / 3 /\
  0 <= 1 /\
  ~ demo_npv 24 1 discharge_first <= demo_npv 24 0 discharge_first.
Proof.
  assert (H0 : demo_battery_profit 24 discharge_first 0 10 = 108)
    by (unfold demo_battery_profit, discharge_first; lra).
  assert (H1 : demo_battery_profit 24 discharge_first 1 1 = - (40 / 3))
    by (unfold demo_battery_profit, discharge_first; lra).
  assert (H2 : demo_battery_profit 24 discharge_first 2 5 = 0)
    by (unfold demo_battery_profit, discharge_first; lra).
  assert (Hnpv0 : demo_npv 24 0 discharge_first = 284 / 3).
  { rewrite demo_npv_eq, H0, H1, H2.
    replace (1 + 0) with 1 by lra. rewrite Rpower_one_base. lra. }
  split; [apply demo_calculate |]. split; [apply demo_calculate |].
  split.
  { unfold demo_daily, demo_bins. cbn [map discount daily_battery_profit snd].
    rewrite H0, H1, H2. reflexivity. }
  split; [exact Hnpv0 |]. split; [lra |].
  rewrite Hnpv0, demo_npv_eq, H0, H1, H2.
  replace (1 + 1) with 2 by lra.
  pose proof Rpower_two_above_one as Hb.
  set (b := Rpower 2 (1 / 365)) in *.
  assert (Hinv : / b < 1).
  { rewrite <- Rinv_1. apply Rinv_lt_contravar; lra. }
  unfold Rdiv. intros Hle. nra.
Qed.

Lemma npv_non_increasing_for_later_gains_witness :
  demo_npv 24 1 charge_first <= demo_npv 24 0 charge_first.
Proof.
  apply (npv_non_increasing_for_later_gains
           (demo_mixed (Some charge_first)) demo_ts
           (demo_finance 24 0) (demo_finance 24 1) 24 0 1 0
           (map (profit_columns 24) (demo_df_out charge_first))
           (map (profit_columns 24) (demo_df_out charge_first))
           (demo_npv 24 0 charge_first) (demo_npv 24 1 charge_first)
           (demo_daily 24 0 charge_first) (demo_daily 24 1 charge_first)).
  - reflexivity.
  - reflexivity.
  - reflexivity.
  - reflexivity.
  - reflexivity.
  - reflexivity.
  - reflexivity.
  - reflexivity.
  - lra.
  - lra.
  - lra.
  - intros row Hrow. unfold demo_daily, demo_bins in Hrow.
    cbn [map In] in Hrow.
    destruct Hrow as [<- | [<- | [<- | []]]];
      unfold discount; cbn [day_of_sim daily_battery_profit fst snd].
    + change (Timedelta_days (0 - 0)) with 0%Z. split; intros; lia.
    + split; [intros _ | change (Timedelta_days (ns_per_day - 0)) with 1%Z; lia].
      unfold demo_battery_profit, charge_first. lra.
    + split; [intros _ | change (Timedelta_days (2 * ns_per_day - 0)) with 2%Z; lia].
      unfold demo_battery_profit, charge_first. lra.
Defined.

(** C9 against the code.  The docstring of [calculate_profit] asks of
    [finance_inputs] the real discount rate and the inflation rate only, but
    the function also reads ['Time Step (hours)'] from it: with exactly the
    two documented columns it raises [KeyError], and two parameter sets with
    the same two rates but time steps of 24 and 1 give different profit
    columns. *)
Theorem time_step_is_read_from_finance_inputs :
  calculate_profit (demo_mixed (Some discharge_first)) demo_ts documented_finance
  = inl KeyError /\
  demo_finance 24 0 !! "Real Discount Rate (%)"
  = demo_finance 1 0 !! "Real Discount Rate (%)" /\
  demo_finance 24 0 !! "Inflation Rate (%)"
  = demo_finance 1 0 !! "Inflation Rate (%)" /\
  calculate_profit (demo_mixed (Some discharge_first)) demo_ts (demo_finance 24 0)
  <> calculate_profit (demo_mixed (Some discharge_first)) demo_ts (demo_finance 1 0).
Proof.
  split; [reflexivity |]. split; [reflexivity |]. split; [reflexivity |].
  rewrite !demo_calculate. intros H.
  injection H. intros. lra.
Qed.

Lemma finance_inputs_read_witness :
  calculate_profit (demo_mixed (Some charge_first)) demo_ts (demo_finance 24 0)
  = calculate_profit (demo_mixed (Some charge_first)) demo_ts
      (<["Depreciation Rate (%)" := 1 / 10]> (demo_finance 24 0)).
Proof.
  apply (finance_inputs_read (demo_mixed (Some charge_first)) demo_ts
           (demo_finance 24 0)
           (<["Depreciation Rate (%)" := 1 / 10]> (demo_finance 24 0)));
    reflexivity.
Defined.


Lemma battery_profit_of_balanced_row_witness :
  exists row,
    In row (map (profit_columns 24) (demo_df_out discharge_first)) /\
    battery_profit row = Some (- 10 * (0 - 9 / 20) * 24).
Proof.
  eexists. split; [left; reflexivity |].
  apply (battery_profit_of_balanced_row
           (demo_mixed (Some discharge_first)) demo_ts (demo_finance 24 0)
           (map (profit_columns 24) (demo_df_out discharge_first))
           (demo_npv 24 0 discharge_first) (demo_daily 24 0 discharge_first)
           24 _ 10 2 (2 - 9 / 20) 0 (9 / 20)).
  - reflexivity.
  - reflexivity.
  - left. reflexivity.
  - reflexivity.
  - reflexivity.
  - reflexivity.
  - reflexivity.
  - reflexivity.
  - lra.
Defined.


(** *** Every interval is counted on exactly one day *)

Lemma Rsum_plus {A : Type} (f g : A -> R) (l : list A) :
  Rsum (map (fun x => f x + g x) l) = Rsum (map f l) + Rsum (map g l).
Proof.
  induction l as [| x l IH]; simpl; [lra |].
  unfold Rsum in *. rewrite IH. lra.
Qed.

Lemma Rsum_indicator_absent (x : Z) (p : R) (ds : list Z) :
  ~ In x ds -> Rsum (map (fun d => if (x =? d)%Z then p else 0) ds) = 0.
Proof.
  induction ds as [| d ds IH]; simpl; intros Hx; [reflexivity |].
  destruct (Z.eqb_spec x d) as [E | E]; [exfalso; apply Hx; left; congruence |].
  unfold Rsum in *. rewrite IH; [lra | tauto].
Qed.

Lemma Rsum_indicator_present (x : Z) (p : R) (ds : list Z) :
  List.NoDup ds -> In x ds ->
  Rsum (map (fun d => if (x =? d)%Z then p else 0) ds) = p.
Proof.
  induction 1 as [| d ds Hd Hnd IH]; simpl; intros Hx; [destruct Hx |].
  destruct (Z.eqb_spec x d) as [E | E].
  - subst d. pose proof (Rsum_indicator_absent x p ds Hd) as H0.
    unfold Rsum in *. rewrite H0. lra.
  - destruct Hx as [Hx | Hx]; [congruence |].
    specialize (IH Hx). unfold Rsum in *. rewrite IH. lra.
Qed.

Lemma day_totals_partition (ds : list Z) (rows : list result_row) :
  List.NoDup ds ->
  (forall r ts, In r rows -> c_time (base r) = Some ts -> In (ts / ns_per_day)%Z ds) ->
  Rsum (map (fun d => spec_day_total d rows) ds) = spec_total rows.
Proof.
  intros Hnd. induction rows as [| r rows IH]; intros Hcov.
  - simpl. clear Hnd Hcov. induction ds as [| d ds IHd]; simpl; [reflexivity |].
    unfold Rsum in *. rewrite IHd. lra.
  - assert (IH' : Rsum (map (fun d => spec_day_total d rows) ds) = spec_total rows).
    { apply IH. intros r0 ts Hin. apply Hcov. right. exact Hin. }
    simpl. destruct (c_time (base r)) as [ts |] eqn:Et; [| exact IH'].
    destruct (battery_profit r) as [p |]; [| exact IH'].
    rewrite (map_ext _ (fun d => (if (ts / ns_per_day =? d)%Z then p else 0)
                                 + spec_day_total d rows)).
    + rewrite Rsum_plus, IH'. rewrite Rsum_indicator_present; [reflexivity | exact Hnd |].
      apply (Hcov r ts); [left; reflexivity | exact Et].
    + intros d. destruct (ts / ns_per_day =? d)%Z; lra.
Qed.

Lemma day_range_NoDup (lo hi : Z) : List.NoDup (day_range lo hi).
Proof.
  unfold day_range. apply Injective_map_NoDup.
  - intros i j Hij. lia.
  - apply List.seq_NoDup.
Qed.

(** The daily battery profits add up to the battery profit of all intervals
    that carry a timestamp. *)
Lemma daily_totals_conserve_profit (rows : list result_row) :
  Rsum (map snd (resample_D_sum rows)) = spec_total rows.
Proof.
  unfold resample_D_sum.
  destruct (ts_min (timestamps rows)) as [lo |] eqn:Hlo.
  - destruct (ts_max (timestamps rows)) as [hi |] eqn:Hhi.
    + rewrite map_map. simpl.
      rewrite (map_ext _ (fun d => spec_day_total d rows))
        by (intros d; apply day_total_agrees).
      apply day_totals_partition; [apply day_range_NoDup |].
      intros r ts Hin Hts. apply in_day_range.
      assert (Hmem : In ts (timestamps rows)) by (apply in_timestamps; eauto).
      destruct (ts_min_spec _ _ Hlo) as [_ Hle].
      destruct (ts_max_spec _ _ Hhi) as [_ Hge].
      split; [apply (date_of_mono lo ts) | apply (date_of_mono ts hi)]; auto.
    + destruct (timestamps rows); simpl in *; discriminate.
  - simpl. assert (Hnil : timestamps rows = []).
    { destruct (timestamps rows); [reflexivity | discriminate]. }
    clear Hlo. induction rows as [| r rows IH]; simpl; [reflexivity |].
    unfold timestamps in Hnil. simpl in Hnil.
    destruct (c_time (base r)); simpl in Hnil; [discriminate |].
    apply IH. exact Hnil.
Qed.

(** ** Further properties of the dispatch model *)

(** *** Building the model *)

Lemma ts_rows_inr (input_ts : gmap Z ts_row) (ts : list nat) (rows : list ts_row) :
  ts_rows input_ts ts = inr rows ->
  length rows = length ts /\
  forall i t, nth_error ts i = Some t ->
    exists r, input_ts !! Z.of_nat t = Some r /\ nth_error rows i = Some r.
Proof.
  revert rows. induction ts as [| t ts IH]; simpl; intros rows H.
  - inversion H. split; [reflexivity |]. intros [| i] t0 Hi; discriminate.
  - unfold ts_at in H. destruct (input_ts !! Z.of_nat t) as [r |] eqn:Er;
      simpl in H; [| discriminate].
    destruct (ts_rows input_ts ts) as [e | rs]; simpl in H; [discriminate |].
    inversion H; subst rows. destruct (IH rs eq_refl) as [Hlen Hnth].
    split; [simpl; congruence |].
    intros [| i] t0 Hi; simpl in *.
    + inversion Hi; subst t0. eauto.
    + apply Hnth. exact Hi.
Qed.

Lemma ts_rows_complete (input_ts : gmap Z ts_row) (ts : list nat) :
  (forall t, In t ts -> is_Some (input_ts !! Z.of_nat t)) ->
  exists rows, ts_rows input_ts ts = inr rows.
Proof.
  induction ts as [| t ts IH]; simpl; intros H; [eauto |].
  destruct (H t (or_introl eq_refl)) as [r Hr].
  destruct IH as [rs Hrs]; [intros; apply H; right; assumption |].
  unfold ts_at. rewrite Hr. simpl. rewrite Hrs. simpl. eauto.
Qed.

Lemma ts_rows_inl (input_ts : gmap Z ts_row) (ts : list nat) (e : PyError) :
  ts_rows input_ts ts = inl e ->
  e = KeyError /\ exists t, In t ts /\ input_ts !! Z.of_nat t = None.
Proof.
  induction ts as [| t ts IH]; simpl; intros H; [discriminate |].
  unfold ts_at in H. destruct (input_ts !! Z.of_nat t) as [r |] eqn:Er; simpl in H.
  - destruct (ts_rows input_ts ts) as [e' | rs]; simpl in H; [| discriminate].
    inversion H; subst e'. destruct (IH eq_refl) as [He (t0 & Hin & Ht0)].
    split; [exact He |]. exists t0. auto.
  - inversion H. split; [reflexivity |]. exists t. auto.
Qed.

Lemma col_inl (frame : gmap string R) (name : string) (e : PyError) :
  col frame name = inl e -> e = KeyError /\ frame !! name = None.
Proof.
  unfold col. destruct (frame !! name); intros H; inversion H. auto.
Qed.

(** The columns of [input_scalar] that both model functions read. *)
Lemma build_reads (dv : list (VarName * Domain)) (rules : list Rule)
    (input_ts : gmap Z ts_row) (input_scalar : gmap string R) (m : ConcreteModel) :
  build dv rules input_ts input_scalar = inr m ->
  input_scalar !! "Maximum Discharge (MW)" = Some (P_d_max (params m)) /\
  input_scalar !! "Maximum Charge (MW)" = Some (P_c_max (params m)) /\
  input_scalar !! "Minimum SOC" = Some (SOC_min (params m)) /\
  input_scalar !! "Maximum SOC" = Some (SOC_max (params m)) /\
  exists rows,
    ts_rows input_ts (seq 0 (size input_ts)) = inr rows /\
    LMP_series (params m) = map row_LMP rows /\
    P_l_series (params m) = map row_load rows.
Proof.
  unfold build. intros H. bind_inv H.
  inversion H; subst m; clear H; simpl.
  repeat match goal with
         | Hc : col _ _ = inr _ |- _ => apply col_inr in Hc
         end.
  repeat split; try assumption. eauto.
Qed.

Lemma build_inl (dv : list (VarName * Domain)) (rules : list Rule)
    (input_ts : gmap Z ts_row) (input_scalar : gmap string R) (e : PyError) :
  build dv rules input_ts input_scalar = inl e -> e = KeyError.
Proof.
  unfold build.
  repeat match goal with
         | |- bind (col ?f ?n) _ = inl _ -> _ =>
             let E := fresh "E" in
             destruct (col f n) as [? | ?] eqn:E; simpl;
             [intros H; inversion H; subst; apply col_inl in E; tauto |]
         end.
  destruct (ts_rows input_ts (seq 0 (size input_ts))) as [e' | rows] eqn:Er; simpl.
  - intros H. inversion H; subst. apply ts_rows_inl in Er. tauto.
  - destruct (size input_ts =? 0)%nat; simpl; [discriminate |].
    destruct (col input_scalar "Starting/Ending SOC") as [e' | v] eqn:Es; simpl;
      [| discriminate].
    intros H. inversion H; subst. apply col_inl in Es. tauto.
Qed.

Lemma build_complete (dv : list (VarName * Domain)) (rules : list Rule)
    (input_ts : gmap Z ts_row) (input_scalar : gmap string R) :
  (exists m, build dv rules input_ts input_scalar = inr m) <->
  complete_inputs input_ts input_scalar.
Proof.
  split.
  - intros [m H]. unfold build in H. bind_inv H.
    repeat match goal with
           | Hc : col _ _ = inr _ |- _ => apply col_inr in Hc
           end.
    split; [| split].
    + intros name Hn. simpl in Hn.
      repeat (destruct Hn as [<- | Hn]; [eauto |]). destruct Hn.
    + intros Hpos. destruct (size input_ts =? 0)%nat eqn:E.
      * apply Nat.eqb_eq in E. lia.
      * apply col_inr in Hx8. eauto.
    + intros t Ht. apply ts_rows_inr in Hx7. destruct Hx7 as [_ Hnth].
      destruct (Hnth t t) as (r & Hr & _); [| eauto].
      rewrite nth_error_seq.
      destruct (Nat.ltb_spec t (size input_ts)); [reflexivity | lia].
  - intros (Hcols & Hsoc & Hrows). unfold build.
    repeat match goal with
           | |- exists m, bind (col ?f ?n) _ = inr m =>
               let Hv := fresh "Hv" in
               assert (Hv : is_Some (f !! n)) by (apply Hcols; simpl; tauto);
               destruct Hv as [? Hv]; unfold col at 1; rewrite Hv; simpl
           end.
    destruct (ts_rows_complete input_ts (seq 0 (size input_ts))) as [rows Hr].
    { intros t Ht. apply in_seq in Ht. apply Hrows. lia. }
    rewrite Hr. simpl.
    destruct (size input_ts =? 0)%nat eqn:E; simpl; [eauto |].
    apply Nat.eqb_neq in E. destruct Hsoc as [vs Hvs]; [lia |].
    unfold col. rewrite Hvs. simpl. eauto.
Qed.


(** X2.  A time series whose index lacks one of the labels
    [0 .. len(input_ts) - 1] makes both model functions raise [KeyError]
    before the solver is called, whatever the solver and the scalars are. *)
Theorem missing_row_label_raises_KeyError
    (solver : Solver) (input_ts : gmap Z ts_row) (input_scalar : gmap string R)
    (t : nat) :
  (t < size input_ts)%nat ->
  input_ts !! Z.of_nat t = None ->
  battery_model solver input_ts input_scalar = inl KeyError /\
  battery_model_no_eff solver input_ts input_scalar = inl KeyError.
Proof.
  intros Ht Hnone.
  assert (Hgen : forall dv rules,
             bind (build dv rules input_ts input_scalar) (solve_and_return solver)
             = inl KeyError).
  { intros dv rules.
    destruct (build dv rules input_ts input_scalar) as [e | m] eqn:Hb; simpl.
    - apply build_inl in Hb. subst e. reflexivity.
    - exfalso.
      assert (Hc : complete_inputs input_ts input_scalar)
        by (apply (build_complete dv rules); eauto).
      destruct Hc as (_ & _ & Hrows). destruct (Hrows t Ht) as [r Hr]. congruence. }
  split; apply Hgen.
Qed.

Lemma missing_row_label_raises_KeyError_witness :
  battery_model (reports optimal None) shifted_ts demo_scalar = inl KeyError /\
  battery_model_no_eff (reports optimal None) shifted_ts demo_scalar = inl KeyError.
Proof.
  apply (missing_row_label_raises_KeyError (reports optimal None) shifted_ts
           demo_scalar 0%nat).
  - vm_compute. lia.
  - reflexivity.
Defined.


(** *** What a feasible schedule satisfies *)

Lemma built_constraints (input_ts : gmap Z ts_row) (input_scalar : gmap string R)
    (m : ConcreteModel) (a : Assignment) (t : nat) :
  battery_model_build input_ts input_scalar = inr m \/
  battery_model_no_eff_build input_ts input_scalar = inr m ->
  feasible m a ->
  (t < len_t (params m))%nat ->
  0 <= a P_d t /\ 0 <= a P_c t /\ 0 <= a S t /\
  a P_m t = a P_c t - a P_d t + P_l (params m) t /\
  holds (storage_state_rule (params m) a t) /\
  a P_d t * delta_t (params m) <= Emax (params m) * a S t /\
  holds (boundary_conditions_rule (params m) a t) /\
  SOC_min (params m) <= a S t /\
  a S t <= SOC_max (params m).
Proof.
  intros Hb Hf Ht. destruct (Hf t Ht) as [Hd Hr].
  assert (Hv : In (P_d, NonNegativeReals) (vars m) /\
               In (P_c, NonNegativeReals) (vars m) /\
               In (S, NonNegativeReals) (vars m)).
  { destruct Hb as [H | H]; apply build_spec in H;
      destruct H as (Hv & _); rewrite Hv; simpl; tauto. }
  assert (Hc : In power_balance_rule (constraints m) /\
               In storage_state_rule (constraints m) /\
               In storage_power_rule (constraints m) /\
               In boundary_conditions_rule (constraints m) /\
               In soc_min_rule (constraints m) /\
               In soc_max_rule (constraints m)).
  { destruct Hb as [H | H]; apply build_spec in H;
      destruct H as (_ & Hc & _); rewrite Hc; simpl; tauto. }
  destruct Hv as (V1 & V2 & V3). destruct Hc as (C1 & C2 & C3 & C4 & C5 & C6).
  pose proof (Hd _ _ V1) as D1. pose proof (Hd _ _ V2) as D2.
  pose proof (Hd _ _ V3) as D3.
  pose proof (Hr _ C1) as R1. pose proof (Hr _ C2) as R2.
  pose proof (Hr _ C3) as R3. pose proof (Hr _ C4) as R4.
  pose proof (Hr _ C5) as R5. pose proof (Hr _ C6) as R6.
  simpl in D1, D2, D3, R1, R3, R5, R6.
  repeat split; try assumption. lra.
Qed.

(** X3.  In both formulations a feasible schedule keeps the state of charge
    between the minimum and the maximum of [input_scalar] and non-negative at
    every index of the horizon, and never discharges more energy in an
    interval than the battery holds at its start. *)
Theorem state_of_charge_within_bounds
    (input_ts : gmap Z ts_row) (input_scalar : gmap string R)
    (m : ConcreteModel) (a : Assignment) (t : nat)
    (soc_lo soc_hi E dt : R) :
  battery_model_build input_ts input_scalar = inr m \/
  battery_model_no_eff_build input_ts input_scalar = inr m ->
  input_scalar !! "Minimum SOC" = Some soc_lo ->
  input_scalar !! "Maximum SOC" = Some soc_hi ->
  input_scalar !! "Capacity (MWh)" = Some E ->
  input_scalar !! "Time Step (hours)" = Some dt ->
  feasible m a ->
  (t < size input_ts)%nat ->
  soc_lo <= a S t <= soc_hi /\ 0 <= a S t /\ a P_d t * dt <= E * a S t.
Proof.
  intros Hb Hlo Hhi HE Hdt Hf Ht.
  assert (Hp : len_t (params m) = size input_ts /\
               input_scalar !! "Minimum SOC" = Some (SOC_min (params m)) /\
               input_scalar !! "Maximum SOC" = Some (SOC_max (params m)) /\
               input_scalar !! "Capacity (MWh)" = Some (Emax (params m)) /\
               input_scalar !! "Time Step (hours)" = Some (delta_t (params m))).
  { destruct Hb as [H | H]; pose proof (build_spec _ _ _ _ _ H) as Hs;
      pose proof (build_reads _ _ _ _ _ H) as Hr; tauto. }
  destruct Hp as (Hn & Hlo' & Hhi' & HE' & Hdt').
  rewrite Hlo in Hlo'. rewrite Hhi in Hhi'. rewrite HE in HE'. rewrite Hdt in Hdt'.
  injection Hlo' as ->. injection Hhi' as ->. injection HE' as ->. injection Hdt' as ->.
  destruct (built_constraints input_ts input_scalar m a t Hb Hf) as
    (_ & _ & H0 & _ & _ & Hpow & _ & Hmin & Hmax); [lia |].
  repeat split; assumption.
Qed.

Lemma state_of_charge_within_bounds_witness :
  0 <= charge_first S 1%nat <= 1 /\ 0 <= charge_first S 1%nat /\
  charge_first P_d 1%nat * 24 <= 48 * charge_first S 1%nat.
Proof.
  apply (state_of_charge_within_bounds demo_ts demo_scalar (demo_linear None)
           charge_first 1%nat 0 1 48 24).
  - left. reflexivity.
  - reflexivity.
  - reflexivity.
  - reflexivity.
  - reflexivity.
  - apply charge_first_feasible.
  - vm_compute. lia.
Defined.

(** X4.  Power limits.  In [battery_model] charge and discharge each stay
    within their own limit; in [battery_model_no_eff] every interval is in
    one of two modes: charging ([u = 1], no discharge, charge within its
    limit) or discharging ([u = 0], no charge, discharge within its limit). *)
Theorem power_limits
    (input_ts : gmap Z ts_row) (input_scalar : gmap string R)
    (m : ConcreteModel) (a : Assignment) (t : nat) (pc_max pd_max : R) :
  input_scalar !! "Maximum Charge (MW)" = Some pc_max ->
  input_scalar !! "Maximum Discharge (MW)" = Some pd_max ->
  feasible m a ->
  (t < size input_ts)%nat ->
  (battery_model_build input_ts input_scalar = inr m ->
   0 <= a P_c t <= pc_max /\ 0 <= a P_d t <= pd_max) /\
  (battery_model_no_eff_build input_ts input_scalar = inr m ->
   (a u t = 1 /\ a P_d t = 0 /\ 0 <= a P_c t <= pc_max) \/
   (a u t = 0 /\ a P_c t = 0 /\ 0 <= a P_d t <= pd_max)).
Proof.
  intros Hpc Hpd Hf Ht. split; intros Hb.
  - pose proof (build_spec _ _ _ _ _ Hb) as (_ & Hc & _ & Hn & _).
    pose proof (build_reads _ _ _ _ _ Hb) as (Hpd' & Hpc' & _).
    rewrite Hpc in Hpc'. rewrite Hpd in Hpd'.
    injection Hpc' as ->. injection Hpd' as ->.
    destruct (built_constraints input_ts input_scalar m a t (or_introl Hb) Hf)
      as (D1 & D2 & _); [lia |].
    destruct (Hf t) as [_ Hr]; [lia |]. rewrite Hc in Hr.
    pose proof (Hr Linear.max_charge_power_rule) as R1.
    pose proof (Hr Linear.max_discharge_power_rule) as R2.
    simpl in R1, R2.
    assert (a P_c t <= P_c_max (params m)) by (apply R1; tauto).
    assert (a P_d t <= P_d_max (params m)) by (apply R2; tauto).
    lra.
  - pose proof (build_spec _ _ _ _ _ Hb) as (Hv & Hc & _ & Hn & _).
    pose proof (build_reads _ _ _ _ _ Hb) as (Hpd' & Hpc' & _).
    rewrite Hpc in Hpc'. rewrite Hpd in Hpd'.
    injection Hpc' as ->. injection Hpd' as ->.
    destruct (built_constraints input_ts input_scalar m a t (or_intror Hb) Hf)
      as (D1 & D2 & _); [lia |].
    destruct (Hf t) as [Hd Hr]; [lia |]. rewrite Hc in Hr. rewrite Hv in Hd.
    pose proof (Hr MixedInteger.max_charge_power_rule) as R1.
    pose proof (Hr MixedInteger.max_discharge_power_rule) as R2.
    pose proof (Hd u Binary) as Du.
    simpl in R1, R2, Du.
    assert (a P_c t <= P_c_max (params m) * a u t) by (apply R1; tauto).
    assert (a P_d t <= P_d_max (params m) * (1 - a u t)) by (apply R2; tauto).
    assert (Hu : a u t = 0 \/ a u t = 1) by (apply Du; tauto).
    destruct Hu as [U | U]; rewrite U in *; [right | left];
      repeat split; lra.
Qed.

Lemma power_limits_witness :
  (charge_first u 0%nat = 1 /\ charge_first P_d 0%nat = 0 /\
   0 <= charge_first P_c 0%nat <= 5) \/
  (charge_first u 0%nat = 0 /\ charge_first P_c 0%nat = 0 /\
   0 <= charge_first P_d 0%nat <= 5).
Proof.
  apply (proj2 (power_limits demo_ts demo_scalar (demo_mixed None) charge_first
                  0%nat 5 5 eq_refl eq_refl
                  (proj2 (charge_first_feasible None))
                  ltac:(vm_compute; lia))).
  reflexivity.
Defined.

(** *** The state of charge in closed form *)

Lemma Rsum_app (l1 l2 : list R) : Rsum (l1 ++ l2) = Rsum l1 + Rsum l2.
Proof.
  unfold Rsum. induction l1 as [| x l1 IH]; simpl; [lra | rewrite IH; lra].
Qed.

Lemma Rsum_seq_S (f : nat -> R) (n : nat) :
  Rsum (map f (seq 0 (Datatypes.S n))) = Rsum (map f (seq 0 n)) + f n.
Proof.
  rewrite seq_S, map_app, Rsum_app. simpl. unfold Rsum. simpl. lra.
Qed.

Lemma Rsum_scale (c : R) (f : nat -> R) (l : list nat) :
  Rsum (map (fun k => c * f k) l) = c * Rsum (map f l).
Proof.
  unfold Rsum. induction l as [| x l IH]; simpl; [lra | rewrite IH; lra].
Qed.

Lemma Rsum_ext_in {A : Type} (f g : A -> R) (l : list A) :
  (forall x, In x l -> f x = g x) -> Rsum (map f l) = Rsum (map g l).
Proof.
  intros H. f_equal. apply map_ext_in. exact H.
Qed.

Lemma state_step (input_ts : gmap Z ts_row) (input_scalar : gmap string R)
    (m : ConcreteModel) (a : Assignment) :
  battery_model_build input_ts input_scalar = inr m \/
  battery_model_no_eff_build input_ts input_scalar = inr m ->
  feasible m a ->
  ((0 < len_t (params m))%nat -> a S 0%nat = SOC_start (params m)) /\
  (forall t, (Datatypes.S t < len_t (params m))%nat ->
     a S (Datatypes.S t)
     = a S t * (1 - eta_self (params m) * delta_t (params m))
       + delta_t (params m) / Emax (params m)
         * net_charge (eta_conv (params m)) a t).
Proof.
  intros Hb Hf. split.
  - intros Hpos.
    destruct (built_constraints _ _ _ _ 0%nat Hb Hf Hpos) as (_ & _ & _ & _ & H & _).
    exact H.
  - intros t Ht.
    destruct (built_constraints _ _ _ _ _ Hb Hf Ht) as (_ & _ & _ & _ & H & _).
    unfold storage_state_rule in H. simpl in H.
    rewrite Nat.sub_0_r in H. exact H.
Qed.

Lemma closed_form_params (input_ts : gmap Z ts_row) (input_scalar : gmap string R)
    (m : ConcreteModel) (a : Assignment) (t : nat) :
  battery_model_build input_ts input_scalar = inr m \/
  battery_model_no_eff_build input_ts input_scalar = inr m ->
  feasible m a ->
  (t < len_t (params m))%nat ->
  a S t
  = SOC_start (params m) * (1 - eta_self (params m) * delta_t (params m)) ^ t
    + delta_t (params m) / Emax (params m)
      * Rsum (map (fun k => (1 - eta_self (params m) * delta_t (params m)) ^ (t - 1 - k)
                            * net_charge (eta_conv (params m)) a k)
                (seq 0 t)).
Proof.
  intros Hb Hf Ht.
  destruct (state_step _ _ _ _ Hb Hf) as [H0 Hstep].
  induction t as [| t IH].
  - rewrite H0 by lia. simpl. unfold Rsum. simpl. lra.
  - rewrite Hstep by lia. rewrite IH by lia.
    rewrite Rsum_seq_S.
    replace (Datatypes.S t - 1 - t)%nat with 0%nat by lia.
    rewrite (Rsum_ext_in
               (fun k => (1 - eta_self (params m) * delta_t (params m))
                         ^ (Datatypes.S t - 1 - k)
                         * net_charge (eta_conv (params m)) a k)
               (fun k => (1 - eta_self (params m) * delta_t (params m))
                         * ((1 - eta_self (params m) * delta_t (params m)) ^ (t - 1 - k)
                            * net_charge (eta_conv (params m)) a k))).
    + rewrite Rsum_scale. simpl. lra.
    + intros k Hk. apply in_seq in Hk.
      replace (Datatypes.S t - 1 - k)%nat with (Datatypes.S (t - 1 - k)) by lia.
      simpl. lra.
Qed.

(** X5.  The state of charge of a feasible schedule in closed form: the
    starting value decayed by self-discharge over [t] intervals, plus the
    decayed contributions [P_c*eta_conv - P_d/eta_conv] of the intervals
    before [t], each scaled by [dt / Emax]. *)
Theorem state_of_charge_closed_form
    (input_ts : gmap Z ts_row) (input_scalar : gmap string R)
    (m : ConcreteModel) (a : Assignment) (t : nat)
    (E dt eta_c eta_s soc : R) :
  battery_model_build input_ts input_scalar = inr m \/
  battery_model_no_eff_build input_ts input_scalar = inr m ->
  input_scalar !! "Capacity (MWh)" = Some E ->
  input_scalar !! "Time Step (hours)" = Some dt ->
  input_scalar !! "One-Way Conversion Efficiency (%)" = Some eta_c ->
  input_scalar !! "Self-Discharge (%/hr)" = Some eta_s ->
  input_scalar !! "Starting/Ending SOC" = Some soc ->
  feasible m a ->
  (t < size input_ts)%nat ->
  a S t
  = soc * (1 - eta_s * dt) ^ t
    + dt / E
      * Rsum (map (fun k => (1 - eta_s * dt) ^ (t - 1 - k) * net_charge eta_c a k)
                (seq 0 t)).
Proof.
  intros Hb HE Hdt Hec Hes Hsoc Hf Ht.
  pose proof (built_cases _ _ _ Hb) as (_ & _ & Hn & HE' & Hdt' & Hec' & Hes' & Hs').
  assert (Hs : input_scalar !! "Starting/Ending SOC" = Some (SOC_start (params m)))
    by (apply Hs'; lia).
  rewrite HE in HE'. rewrite Hdt in Hdt'. rewrite Hec in Hec'.
  rewrite Hes in Hes'. rewrite Hsoc in Hs.
  injection HE' as ->. injection Hdt' as ->. injection Hec' as ->.
  injection Hes' as ->. injection Hs as ->.
  apply (closed_form_params input_ts input_scalar); [exact Hb | exact Hf | lia].
Qed.

Lemma state_of_charge_closed_form_witness :
  charge_first S 2%nat
  = 1 / 2 * (1 - 0 * 24) ^ 2
    + 24 / 48
      * Rsum (map (fun k => (1 - 0 * 24) ^ (2 - 1 - k) * net_charge (9 / 10) charge_first k)
                (seq 0 2)).
Proof.
  apply (state_of_charge_closed_form demo_ts demo_scalar (demo_linear None)
           charge_first 2%nat 48 24 (9 / 10) 0 (1 / 2)).
  - left. reflexivity.
  - reflexivity.
  - reflexivity.
  - reflexivity.
  - reflexivity.
  - reflexivity.
  - apply charge_first_feasible.
  - vm_compute. lia.
Defined.

(** X6.  Without self-discharge, with a non-zero time step, capacity and
    efficiency, a feasible schedule discharges before the last interval
    exactly [eta_conv^2] times what it charges before the last interval: the
    round trip back to the starting state of charge costs the conversion
    loss twice. *)
Theorem round_trip_energy_balance
    (input_ts : gmap Z ts_row) (input_scalar : gmap string R)
    (m : ConcreteModel) (a : Assignment) (E dt eta_c soc : R) :
  battery_model_build input_ts input_scalar = inr m \/
  battery_model_no_eff_build input_ts input_scalar = inr m ->
  input_scalar !! "Capacity (MWh)" = Some E ->
  input_scalar !! "Time Step (hours)" = Some dt ->
  input_scalar !! "One-Way Conversion Efficiency (%)" = Some eta_c ->
  input_scalar !! "Self-Discharge (%/hr)" = Some 0 ->
  input_scalar !! "Starting/Ending SOC" = Some soc ->
  E <> 0 -> dt <> 0 -> eta_c <> 0 ->
  feasible m a ->
  (0 < size input_ts)%nat ->
  Rsum (map (a P_d) (seq 0 (size input_ts - 1)))
  = eta_c ^ 2 * Rsum (map (a P_c) (seq 0 (size input_ts - 1))).
Proof.
  intros Hb HE Hdt Hec Hes Hsoc HE0 Hdt0 Hec0 Hf Hpos.
  pose proof (built_cases _ _ _ Hb) as (_ & _ & Hn & HE' & Hdt' & Hec' & Hes' & Hs').
  assert (Hs : input_scalar !! "Starting/Ending SOC" = Some (SOC_start (params m)))
    by (apply Hs'; lia).
  pose proof (closed_form_params _ _ _ a (size input_ts - 1)%nat Hb Hf ltac:(lia))
    as Hcf.
  rewrite HE in HE'. rewrite Hdt in Hdt'. rewrite Hec in Hec'.
  rewrite Hes in Hes'. rewrite Hsoc in Hs.
  injection HE' as HE'. injection Hdt' as Hdt'. injection Hec' as Hec'.
  injection Hes' as Hes'. injection Hs as Hs.
  rewrite <- HE', <- Hdt', <- Hec', <- Hes', <- Hs in Hcf.
  destruct (built_constraints _ _ _ a (size input_ts - 1)%nat Hb Hf ltac:(lia))
    as (_ & _ & _ & _ & _ & _ & Hbd & _).
  unfold boundary_conditions_rule in Hbd. rewrite Hn, Nat.eqb_refl in Hbd.
  simpl in Hbd. rewrite <- Hs in Hbd. rewrite Hbd in Hcf.
  set (n := (size input_ts - 1)%nat) in *.
  rewrite (Rsum_ext_in _ (net_charge eta_c a)) in Hcf.
  2:{ intros k _. replace (1 - 0 * dt) with 1 by lra. rewrite pow1. lra. }
  replace (1 - 0 * dt) with 1 in Hcf by lra. rewrite pow1 in Hcf.
  assert (Hz : Rsum (map (net_charge eta_c a) (seq 0 n)) = 0).
  { assert (Hg : dt / E <> 0).
    { unfold Rdiv. apply Rmult_integral_contrapositive_currified;
        [exact Hdt0 | apply Rinv_neq_0_compat; exact HE0]. }
    assert (Hm : dt / E * Rsum (map (net_charge eta_c a) (seq 0 n)) = 0) by lra.
    apply Rmult_integral in Hm. tauto. }
  assert (Hsplit : Rsum (map (net_charge eta_c a) (seq 0 n))
                   = eta_c * Rsum (map (a P_c) (seq 0 n))
                     - / eta_c * Rsum (map (a P_d) (seq 0 n))).
  { clear. unfold Rsum, net_charge.
    induction (seq 0 n) as [| k l IH]; simpl; [lra |].
    rewrite IH. unfold Rdiv. lra. }
  rewrite Hsplit in Hz.
  assert (Hd : Rsum (map (a P_d) (seq 0 n))
               = eta_c * (eta_c * Rsum (map (a P_c) (seq 0 n)))).
  { apply (Rmult_eq_reg_l (/ eta_c)); [| apply Rinv_neq_0_compat; exact Hec0].
    rewrite <- (Rmult_assoc (/ eta_c) eta_c), Rinv_l by exact Hec0. lra. }
  rewrite Hd. simpl. lra.
Qed.

Lemma round_trip_energy_balance_witness :
  Rsum (map (charge_first P_d) (seq 0 (size demo_ts - 1)))
  = (9 / 10) ^ 2 * Rsum (map (charge_first P_c) (seq 0 (size demo_ts - 1))).
Proof.
  apply (round_trip_energy_balance demo_ts demo_scalar (demo_mixed None)
           charge_first 48 24 (9 / 10) (1 / 2)).
  - right. reflexivity.
  - reflexivity.
  - reflexivity.
  - reflexivity.
  - reflexivity.
  - reflexivity.
  - lra.
  - lra.
  - lra.
  - apply charge_first_feasible.
  - vm_compute. lia.
Defined.

(** X7.  The state of charge is determined by the schedule of the earlier
    intervals: two feasible schedules of one model that charge and discharge
    alike before [t] have the same state of charge at [t].  In particular the
    powers of the last interval act on no state of charge. *)
Theorem state_of_charge_determined_by_earlier_powers
    (input_ts : gmap Z ts_row) (input_scalar : gmap string R)
    (m : ConcreteModel) (a a' : Assignment) (t : nat) :
  battery_model_build input_ts input_scalar = inr m \/
  battery_model_no_eff_build input_ts input_scalar = inr m ->
  feasible m a -> feasible m a' ->
  (t < size input_ts)%nat ->
  (forall k, (k < t)%nat -> a P_c k = a' P_c k /\ a P_d k = a' P_d k) ->
  a S t = a' S t.
Proof.
  intros Hb Hf Hf' Ht Heq.
  pose proof (built_cases _ _ _ Hb) as (_ & _ & Hn & _).
  destruct (state_step _ _ _ _ Hb Hf) as [H0 Hstep].
  destruct (state_step _ _ _ _ Hb Hf') as [H0' Hstep'].
  rewrite Hn in *.
  induction t as [| t IH].
  - rewrite H0, H0' by lia. reflexivity.
  - rewrite Hstep, Hstep' by lia.
    rewrite IH; [| lia | intros k Hk; apply Heq; lia].
    unfold net_charge. destruct (Heq t) as [-> ->]; [lia |]. reflexivity.
Qed.

(** *** The last interval *)

Lemma built_rules (input_ts : gmap Z ts_row) (input_scalar : gmap string R)
    (m : ConcreteModel) :
  battery_model_build input_ts input_scalar = inr m \/
  battery_model_no_eff_build input_ts input_scalar = inr m ->
  (vars m = [(P_d, NonNegativeReals); (P_c, NonNegativeReals);
             (S, NonNegativeReals); (P_m, Reals)] /\
   constraints m = [power_balance_rule; storage_state_rule; storage_power_rule;
                    boundary_conditions_rule;
                    Linear.max_charge_power_rule; Linear.max_discharge_power_rule;
                    soc_min_rule; soc_max_rule]) \/
  (vars m = [(P_d, NonNegativeReals); (P_c, NonNegativeReals);
             (S, NonNegativeReals); (P_m, Reals); (u, Binary)] /\
   constraints m = [power_balance_rule; storage_state_rule; storage_power_rule;
                    boundary_conditions_rule;
                    MixedInteger.max_charge_power_rule;
                    MixedInteger.max_discharge_power_rule;
                    soc_min_rule; soc_max_rule]).
Proof.
  intros [H | H]; apply build_spec in H; destruct H as (Hv & Hc & _);
    [left | right]; split; assumption.
Qed.

Lemma Rsum_change_last (f g : nat -> R) (n : nat) :
  (forall t, (t < n)%nat -> f t = g t) ->
  Rsum (map f (seq 0 (Datatypes.S n))) = Rsum (map g (seq 0 (Datatypes.S n))) + (f n - g n).
Proof.
  intros H. rewrite !Rsum_seq_S. rewrite (Rsum_ext_in f g).
  - lra.
  - intros t Ht. apply in_seq in Ht. apply H. lia.
Qed.

Lemma objective_change_at_end (m : Params) (a a' : Assignment) :
  (0 < len_t m)%nat ->
  (forall t, (t < len_t m - 1)%nat -> a' P_m t = a P_m t) ->
  objective m a'
  = objective m a
    + LMP m (len_t m - 1) * (a' P_m (len_t m - 1)%nat - a P_m (len_t m - 1)%nat)
      * delta_t m.
Proof.
  intros Hpos Heq. unfold objective.
  destruct (len_t m) as [| n] eqn:E; [lia |].
  replace (Datatypes.S n - 1)%nat with n in * by lia.
  pose proof (Rsum_change_last (fun t => LMP m t * a' P_m t * delta_t m)
                (fun t => LMP m t * a P_m t * delta_t m) n) as H.
  unfold Rsum in H. rewrite H.
  - lra.
  - intros t Ht. rewrite Heq by exact Ht. reflexivity.
Qed.

Lemma discharge_at_end_feasible
    (input_ts : gmap Z ts_row) (input_scalar : gmap string R)
    (m : ConcreteModel) (a : Assignment) (x : R) :
  battery_model_build input_ts input_scalar = inr m \/
  battery_model_no_eff_build input_ts input_scalar = inr m ->
  feasible m a ->
  (0 < len_t (params m))%nat ->
  0 <= x ->
  x <= P_d_max (params m) ->
  x * delta_t (params m) <= Emax (params m) * a S (len_t (params m) - 1)%nat ->
  feasible m (discharge_at_end (params m) a x).
Proof.
  intros Hb Hf Hpos Hx0 Hx1 Hx2.
  intros t Ht.
  destruct (built_constraints _ _ _ a t Hb Hf Ht)
    as (D1 & D2 & D3 & B & _).
  destruct (Hf t Ht) as [Hd Hr].
  destruct (built_rules _ _ _ Hb) as [[Hv Hc] | [Hv Hc]];
    rewrite Hv, Hc in *; split.
  + intros v d Hin. pose proof (Hd v d Hin) as Hold.
    each_member Hin; inversion Hin; subst v d; simpl in Hold |- *;
      unfold discharge_at_end;
      destruct (Nat.eqb_spec t (len_t (params m) - 1)) as [E | E];
      first [exact Hold | exact I | lra].
  + intros rule Hin. pose proof (Hr rule Hin) as Hold.
    pose proof (Hr Linear.max_charge_power_rule) as Hcm. simpl in Hcm.
    each_member Hin; subst rule;
      cbv [power_balance_rule storage_state_rule storage_power_rule
           boundary_conditions_rule soc_min_rule soc_max_rule
           Linear.max_charge_power_rule Linear.max_discharge_power_rule
           discharge_at_end] in Hold |- *;
      destruct (Nat.eqb_spec t (len_t (params m) - 1)) as [E | E];
      destruct (Nat.eqb_spec t 0) as [E0 | E0];
      try (replace ((t - 1 =? len_t (params m) - 1)%nat) with false
             by (symmetry; apply Nat.eqb_neq; lia));
      try rewrite <- E in *;
      simpl in Hold |- *; try rewrite E0 in *; simpl in Hold |- *;
      first [exact Hold | exact I | lra | idtac].
    all: try (assert (a P_c t <= P_c_max (params m)) by (apply Hcm; tauto); lra).
  + intros v d Hin. pose proof (Hd v d Hin) as Hold.
    each_member Hin; inversion Hin; subst v d; simpl in Hold |- *;
      unfold discharge_at_end;
      destruct (Nat.eqb_spec t (len_t (params m) - 1)) as [E | E];
      first [exact Hold | exact I | lra | left; reflexivity].
  + intros rule Hin. pose proof (Hr rule Hin) as Hold.
    each_member Hin; subst rule;
      cbv [power_balance_rule storage_state_rule storage_power_rule
           boundary_conditions_rule soc_min_rule soc_max_rule
           MixedInteger.max_charge_power_rule MixedInteger.max_discharge_power_rule
           discharge_at_end] in Hold |- *;
      destruct (Nat.eqb_spec t (len_t (params m) - 1)) as [E | E];
      destruct (Nat.eqb_spec t 0) as [E0 | E0];
      try (replace ((t - 1 =? len_t (params m) - 1)%nat) with false
             by (symmetry; apply Nat.eqb_neq; lia));
      try rewrite <- E in *;
      simpl in Hold |- *; try rewrite E0 in *; simpl in Hold |- *;
      first [exact Hold | exact I | lra | idtac].
Qed.

(** X8.  The last interval is free: a feasible schedule stays feasible when
    its last interval is changed to no charge and any discharge [x] within
    the discharge limit and the energy held, because no state of charge
    follows the last interval; the objective falls by the last price times
    the energy sold more. *)
Theorem final_interval_discharge
    (input_ts : gmap Z ts_row) (input_scalar : gmap string R)
    (m : ConcreteModel) (a : Assignment) (x : R) :
  battery_model_build input_ts input_scalar = inr m \/
  battery_model_no_eff_build input_ts input_scalar = inr m ->
  feasible m a ->
  (0 < len_t (params m))%nat ->
  0 <= x ->
  x <= P_d_max (params m) ->
  x * delta_t (params m) <= Emax (params m) * a S (len_t (params m) - 1)%nat ->
  feasible m (discharge_at_end (params m) a x) /\
  objective (params m) (discharge_at_end (params m) a x)
  = objective (params m) a
    - LMP (params m) (len_t (params m) - 1)
      * (x + a P_c (len_t (params m) - 1)%nat - a P_d (len_t (params m) - 1)%nat)
      * delta_t (params m).
Proof.
  intros Hb Hf Hpos Hx0 Hx1 Hx2. split.
  - apply (discharge_at_end_feasible input_ts input_scalar); assumption.
  - rewrite (objective_change_at_end (params m) a (discharge_at_end (params m) a x)).
    + destruct (built_constraints _ _ _ a (len_t (params m) - 1)%nat Hb Hf)
        as (_ & _ & _ & B & _); [lia |].
      unfold discharge_at_end. rewrite Nat.eqb_refl. rewrite B. lra.
    + exact Hpos.
    + intros t Ht. unfold discharge_at_end.
      destruct (Nat.eqb_spec t (len_t (params m) - 1)); [lia | reflexivity].
Qed.



Lemma final_interval_discharge_witness :
  feasible (demo_linear None) (discharge_at_end demo_params charge_first 1) /\
  objective demo_params (discharge_at_end demo_params charge_first 1)
  = objective demo_params charge_first
    - LMP demo_params (3 - 1) * (1 + charge_first P_c (3 - 1)%nat
                                 - charge_first P_d (3 - 1)%nat) * 24.
Proof.
  apply (final_interval_discharge demo_ts demo_scalar (demo_linear None)
           charge_first 1).
  - left. reflexivity.
  - apply charge_first_feasible.
  - simpl. lia.
  - lra.
  - simpl. lra.
  - simpl. lra.
Defined.

Lemma state_of_charge_determined_by_earlier_powers_witness :
  charge_first S 2%nat = discharge_at_end demo_params charge_first 1 S 2%nat.
Proof.
  apply (state_of_charge_determined_by_earlier_powers demo_ts demo_scalar
           (demo_linear None) charge_first
           (discharge_at_end demo_params charge_first 1) 2%nat).
  - left. reflexivity.
  - apply charge_first_feasible.
  - apply (discharge_at_end_feasible demo_ts demo_scalar (demo_linear None)).
    + left. reflexivity.
    + apply charge_first_feasible.
    + simpl. lia.
    + lra.
    + simpl. lra.
    + simpl. lra.
  - vm_compute. lia.
  - intros k Hk. unfold discharge_at_end. simpl.
    destruct k as [| [| k]]; [simpl; split; reflexivity .. | lia].
Defined.

(** X9.  The end of the horizon is sold off: when the last price times the
    time step is positive, a cost-optimal schedule discharges in the last
    interval at least every amount [x] that the discharge limit and the
    energy held allow, and [x] more than it charges there, although its
    state of charge at the last index is the starting value. *)
Theorem optimal_schedule_discharges_at_the_end
    (input_ts : gmap Z ts_row) (input_scalar : gmap string R)
    (m : ConcreteModel) (a : Assignment) (x : R) :
  battery_model_build input_ts input_scalar = inr m \/
  battery_model_no_eff_build input_ts input_scalar = inr m ->
  is_optimal m a ->
  (0 < len_t (params m))%nat ->
  0 < LMP (params m) (len_t (params m) - 1) * delta_t (params m) ->
  0 <= x ->
  x <= P_d_max (params m) ->
  x * delta_t (params m) <= Emax (params m) * a S (len_t (params m) - 1)%nat ->
  x + a P_c (len_t (params m) - 1)%nat <= a P_d (len_t (params m) - 1)%nat /\
  a S (len_t (params m) - 1)%nat = SOC_start (params m).
Proof.
  intros Hb [Hf Hopt] Hpos Hprice Hx0 Hx1 Hx2.
  pose proof (discharge_at_end_feasible _ _ _ _ _ Hb Hf Hpos Hx0 Hx1 Hx2) as Hf'.
  pose proof (Hopt _ Hf') as Hle.
  rewrite (objective_change_at_end (params m) a (discharge_at_end (params m) a x))
    in Hle.
  - destruct (built_constraints _ _ _ a (len_t (params m) - 1)%nat Hb Hf)
      as (_ & _ & _ & B & _ & _ & Hbd & _); [lia |].
    unfold boundary_conditions_rule in Hbd. rewrite Nat.eqb_refl in Hbd.
    split; [| exact Hbd].
    unfold discharge_at_end in Hle. rewrite Nat.eqb_refl, B in Hle.
    set (p := LMP (params m) (len_t (params m) - 1)) in *.
    set (d := delta_t (params m)) in *.
    assert (0 <= p * d * (a P_d (len_t (params m) - 1)%nat
                          - x - a P_c (len_t (params m) - 1)%nat)) by lra.
    nra.
  - exact Hpos.
  - intros t Ht. unfold discharge_at_end.
    destruct (Nat.eqb_spec t (len_t (params m) - 1)); [lia | reflexivity].
Qed.

Example one_step_build :
  battery_model_build short_ts demo_scalar = inr one_step_linear.
Proof. reflexivity. Qed.

Lemma sell_at_once_optimal : is_optimal one_step_linear sell_at_once.
Proof.
  split.
  - intros t Ht. destruct t as [| t]; [| simpl in Ht; lia]. split.
    + intros v d H; each_member H; inversion H; subst; simpl; lra.
    + intros rule H; each_member H; subst;
        cbv [power_balance_rule storage_state_rule storage_power_rule
             boundary_conditions_rule soc_min_rule soc_max_rule
             Linear.max_charge_power_rule Linear.max_discharge_power_rule
             holds one_step_linear params P_l LMP sell_at_once];
        simpl; first [exact I | lra].
  - intros a' Hf'.
    destruct (built_constraints short_ts demo_scalar one_step_linear a' 0%nat
                (or_introl one_step_build) Hf')
      as (D1 & D2 & _ & B & HS & Hpow & _); [simpl; lia |].
    simpl in B, HS, Hpow. unfold P_l in B. simpl in B.
    unfold objective, LMP. simpl. unfold sell_at_once. lra.
Qed.

Lemma optimal_schedule_discharges_at_the_end_witness :
  1 + sell_at_once P_c 0%nat <= sell_at_once P_d 0%nat /\
  sell_at_once S 0%nat = 1 / 2.
Proof.
  apply (optimal_schedule_discharges_at_the_end short_ts demo_scalar
           one_step_linear sell_at_once 1).
  - left. reflexivity.
  - exact sell_at_once_optimal.
  - simpl. lia.
  - unfold LMP. simpl. lra.
  - lra.
  - simpl. lra.
  - simpl. lra.
Defined.

(** *** Doing nothing *)

Lemma idle_feasible_params (input_ts : gmap Z ts_row) (input_scalar : gmap string R)
    (m : ConcreteModel) :
  battery_model_build input_ts input_scalar = inr m \/
  battery_model_no_eff_build input_ts input_scalar = inr m ->
  eta_self (params m) = 0 ->
  SOC_min (params m) <= SOC_start (params m) <= SOC_max (params m) ->
  0 <= SOC_start (params m) ->
  0 <= Emax (params m) * SOC_start (params m) ->
  0 <= P_c_max (params m) ->
  0 <= P_d_max (params m) ->
  feasible m (idle (params m)).
Proof.
  intros Hb Hes Hsoc Hs0 HE Hpc Hpd t Ht.
  destruct (built_rules _ _ _ Hb) as [[Hv Hc] | [Hv Hc]]; rewrite Hv, Hc; split.
  - intros v d H; each_member H; inversion H; subst; simpl; first [exact I | lra].
  - intros rule H; each_member H; subst;
      cbv [power_balance_rule storage_state_rule storage_power_rule
           boundary_conditions_rule soc_min_rule soc_max_rule
           Linear.max_charge_power_rule Linear.max_discharge_power_rule idle];
      try destruct (t =? 0)%nat; try destruct (t =? len_t (params m) - 1)%nat;
      simpl; try rewrite Hes; first [exact I | lra | unfold Rdiv; lra].
  - intros v d H; each_member H; inversion H; subst; simpl;
      first [exact I | lra | left; reflexivity].
  - intros rule H; each_member H; subst;
      cbv [power_balance_rule storage_state_rule storage_power_rule
           boundary_conditions_rule soc_min_rule soc_max_rule
           MixedInteger.max_charge_power_rule MixedInteger.max_discharge_power_rule
           idle];
      try destruct (t =? 0)%nat; try destruct (t =? len_t (params m) - 1)%nat;
      simpl; try rewrite Hes; first [exact I | lra | unfold Rdiv; lra].
Qed.

Lemma idle_objective (m : Params) : objective m (idle m) = no_battery_cost m.
Proof. reflexivity. Qed.

(** X10.  Without self-discharge, with a starting state of charge inside
    its bounds and non-negative limits, leaving the battery idle is a
    feasible schedule of both formulations and costs what the load costs
    without a battery; so a cost-optimal schedule never costs more than
    that. *)
Theorem idle_schedule_is_feasible
    (input_ts : gmap Z ts_row) (input_scalar : gmap string R)
    (m : ConcreteModel) (soc_lo soc_hi soc E pc_max pd_max : R) :
  battery_model_build input_ts input_scalar = inr m \/
  battery_model_no_eff_build input_ts input_scalar = inr m ->
  input_scalar !! "Self-Discharge (%/hr)" = Some 0 ->
  input_scalar !! "Minimum SOC" = Some soc_lo ->
  input_scalar !! "Maximum SOC" = Some soc_hi ->
  input_scalar !! "Starting/Ending SOC" = Some soc ->
  input_scalar !! "Capacity (MWh)" = Some E ->
  input_scalar !! "Maximum Charge (MW)" = Some pc_max ->
  input_scalar !! "Maximum Discharge (MW)" = Some pd_max ->
  soc_lo <= soc <= soc_hi -> 0 <= soc -> 0 <= E -> 0 <= pc_max -> 0 <= pd_max ->
  (0 < size input_ts)%nat ->
  feasible m (idle (params m)) /\
  objective (params m) (idle (params m)) = no_battery_cost (params m) /\
  forall a, is_optimal m a -> objective (params m) a <= no_battery_cost (params m).
Proof.
  intros Hb Hes Hlo Hhi Hsoc HE Hpc Hpd Hin H0 HE0 Hpc0 Hpd0 Hpos.
  assert (Hp : input_scalar !! "Minimum SOC" = Some (SOC_min (params m)) /\
               input_scalar !! "Maximum SOC" = Some (SOC_max (params m)) /\
               input_scalar !! "Capacity (MWh)" = Some (Emax (params m)) /\
               input_scalar !! "Self-Discharge (%/hr)" = Some (eta_self (params m)) /\
               input_scalar !! "Maximum Charge (MW)" = Some (P_c_max (params m)) /\
               input_scalar !! "Maximum Discharge (MW)" = Some (P_d_max (params m)) /\
               input_scalar !! "Starting/Ending SOC" = Some (SOC_start (params m))).
  { destruct Hb as [H | H]; pose proof (build_spec _ _ _ _ _ H) as Hs;
      pose proof (build_reads _ _ _ _ _ H) as Hr;
      destruct Hs as (_ & _ & _ & _ & ? & _ & _ & ? & Hst);
      specialize (Hst Hpos); tauto. }
  destruct Hp as (Hlo' & Hhi' & HE' & Hes' & Hpc' & Hpd' & Hsoc').
  rewrite Hlo in Hlo'. rewrite Hhi in Hhi'. rewrite HE in HE'. rewrite Hes in Hes'.
  rewrite Hpc in Hpc'. rewrite Hpd in Hpd'. rewrite Hsoc in Hsoc'.
  injection Hlo' as ->. injection Hhi' as ->. injection HE' as ->.
  injection Hes' as Hes'. injection Hpc' as ->. injection Hpd' as ->.
  injection Hsoc' as ->.
  assert (Hidle : feasible m (idle (params m))).
  { apply (idle_feasible_params input_ts input_scalar); auto.
    apply Rmult_le_pos; assumption. }
  split; [exact Hidle |]. split; [apply idle_objective |].
  intros a [_ Hopt]. rewrite <- idle_objective. apply Hopt. exact Hidle.
Qed.

Lemma idle_schedule_is_feasible_witness :
  feasible (demo_mixed None) (idle demo_params) /\
  objective demo_params (idle demo_params) = no_battery_cost demo_params /\
  forall a, is_optimal (demo_mixed None) a ->
            objective demo_params a <= no_battery_cost demo_params.
Proof.
  apply (idle_schedule_is_feasible demo_ts demo_scalar (demo_mixed None)
           0 1 (1 / 2) 48 5 5).
  - right. reflexivity.
  - reflexivity.
  - reflexivity.
  - reflexivity.
  - reflexivity.
  - reflexivity.
  - reflexivity.
  - reflexivity.
  - lra.
  - lra.
  - lra.
  - lra.
  - lra.
  - vm_compute. lia.
Defined.

(** X11.  A starting state of charge outside its bounds, or negative, leaves
    the problem of a non-empty horizon without any feasible schedule in
    either formulation. *)
Theorem start_outside_bounds_is_infeasible
    (input_ts : gmap Z ts_row) (input_scalar : gmap string R)
    (m : ConcreteModel) (a : Assignment) (soc_lo soc_hi soc : R) :
  battery_model_build input_ts input_scalar = inr m \/
  battery_model_no_eff_build input_ts input_scalar = inr m ->
  input_scalar !! "Minimum SOC" = Some soc_lo ->
  input_scalar !! "Maximum SOC" = Some soc_hi ->
  input_scalar !! "Starting/Ending SOC" = Some soc ->
  (0 < size input_ts)%nat ->
  soc < soc_lo \/ soc_hi < soc \/ soc < 0 ->
  ~ feasible m a.
Proof.
  intros Hb Hlo Hhi Hsoc Hpos Hout Hf.
  assert (Hp : len_t (params m) = size input_ts /\
               input_scalar !! "Minimum SOC" = Some (SOC_min (params m)) /\
               input_scalar !! "Maximum SOC" = Some (SOC_max (params m)) /\
               input_scalar !! "Starting/Ending SOC" = Some (SOC_start (params m))).
  { destruct Hb as [H | H]; pose proof (build_spec _ _ _ _ _ H) as Hs;
      pose proof (build_reads _ _ _ _ _ H) as Hr;
      destruct Hs as (_ & _ & _ & ? & _ & _ & _ & _ & Hst);
      specialize (Hst Hpos); tauto. }
  destruct Hp as (Hn & Hlo' & Hhi' & Hsoc').
  rewrite Hlo in Hlo'. rewrite Hhi in Hhi'. rewrite Hsoc in Hsoc'.
  injection Hlo' as ->. injection Hhi' as ->. injection Hsoc' as ->.
  destruct (built_constraints _ _ _ a 0%nat Hb Hf)
    as (_ & _ & D3 & _ & HS & _ & _ & Hmin & Hmax); [lia |].
  simpl in HS. lra.
Qed.

Lemma start_outside_bounds_is_infeasible_witness :
  ~ feasible (demo_linear_with (9 / 10) 2) (idle (params (demo_linear_with (9 / 10) 2))).
Proof.
  apply (start_outside_bounds_is_infeasible demo_ts overfull_scalar
           (demo_linear_with (9 / 10) 2) _ 0 1 2).
  - left. reflexivity.
  - reflexivity.
  - reflexivity.
  - reflexivity.
  - vm_compute. lia.
  - right. left. lra.
Defined.

(** *** Full efficiency in the linear formulation *)




Example lossless_build :
  battery_model_build demo_ts lossless_scalar = inr (demo_linear_with 1 (1 / 2)).
Proof. reflexivity. Qed.


(** ** Further properties of the post-processing *)

(** *** From the model back to the table *)

Lemma built_series (input_ts : gmap Z ts_row) (input_scalar : gmap string R)
    (m : ConcreteModel) (t : nat) :
  battery_model_build input_ts input_scalar = inr m \/
  battery_model_no_eff_build input_ts input_scalar = inr m ->
  (t < len_t (params m))%nat ->
  exists r,
    input_ts !! Z.of_nat t = Some r /\
    LMP (params m) t = row_LMP r /\
    P_l (params m) t = row_load r.
Proof.
  intros Hb Ht.
  assert (H : len_t (params m) = size input_ts /\
              exists rows,
                ts_rows input_ts (seq 0 (size input_ts)) = inr rows /\
                LMP_series (params m) = map row_LMP rows /\
                P_l_series (params m) = map row_load rows).
  { destruct Hb as [H | H]; pose proof (build_spec _ _ _ _ _ H) as Hs;
      pose proof (build_reads _ _ _ _ _ H) as Hr; tauto. }
  destruct H as (Hn & rows & Hrows & HL & HP).
  apply ts_rows_inr in Hrows. destruct Hrows as [_ Hnth].
  destruct (Hnth t t) as (r & Hr & Hrt).
  { rewrite nth_error_seq.
    destruct (Nat.ltb_spec t (size input_ts)); [reflexivity | lia]. }
  exists r. split; [exact Hr |]. unfold LMP, P_l. rewrite HL, HP.
  split; apply nth_error_nth; rewrite nth_error_map, Hrt; reflexivity.
Qed.

Lemma returned_model (solver : Solver) (input_ts : gmap Z ts_row)
    (input_scalar : gmap string R) (m : ConcreteModel) (results : SolverResults) :
  battery_model solver input_ts input_scalar = inr (m, results) \/
  battery_model_no_eff solver input_ts input_scalar = inr (m, results) ->
  exists m0,
    (battery_model_build input_ts input_scalar = inr m0 \/
     battery_model_no_eff_build input_ts input_scalar = inr m0) /\
    params m = params m0 /\ vars m = vars m0 /\ constraints m = constraints m0.
Proof.
  intros [H | H]; unfold battery_model, battery_model_no_eff in H;
    apply bind_inr in H; destruct H as (m0 & H0 & H);
    apply solve_and_return_spec in H; exists m0; tauto.
Qed.

Lemma Series_sum_of_present {A : Type} (f : A -> option R) (g : A -> R) (l : list A) :
  (forall x, In x l -> f x = Some (g x)) ->
  Series_sum (map f l) = Rsum (map g l).
Proof.
  induction l as [| x l IH]; simpl; intros H; [reflexivity |].
  rewrite (H x) by (left; reflexivity).
  rewrite IH by (intros; apply H; right; assumption). reflexivity.
Qed.

(** X13.  Extraction against the time series the model was built from loses
    nothing: the table has one row per interval, and row [t] holds the
    timestamp, price and load of the row of [input_ts] labelled [t] and the
    loaded value of the grid power, none of them missing. *)
Theorem extraction_of_the_solved_series_is_complete
    (solver : Solver) (input_ts : gmap Z ts_row) (input_scalar : gmap string R)
    (m : ConcreteModel) (results : SolverResults) (a : Assignment) (t : nat) :
  battery_model solver input_ts input_scalar = inr (m, results) \/
  battery_model_no_eff solver input_ts input_scalar = inr (m, results) ->
  loaded m = Some a ->
  (t < size input_ts)%nat ->
  exists (df : list df_row) (row : df_row) (r : ts_row),
    extract_results m input_ts = inr df /\
    length df = size input_ts /\
    nth_error df t = Some row /\
    input_ts !! Z.of_nat t = Some r /\
    c_time row = Some (row_INTERVAL_START r) /\
    c_LMP row = Some (row_LMP r) /\
    c_load row = Some (row_load r) /\
    c_P_m row = Some (a P_m t) /\
    c_P_c row = Some (a P_c t) /\
    c_P_d row = Some (a P_d t) /\
    c_S row = Some (a S t).
Proof.
  intros Hret Hl Ht.
  destruct (returned_model _ _ _ _ _ Hret) as (m0 & Hb & Hp & Hv & _).
  pose proof (built_cases _ _ _ Hb) as (_ & _ & Hn & _).
  pose proof (built_rules _ _ _ Hb) as Hvars.
  destruct (built_series _ _ _ t Hb) as (r & Hr & _); [lia |].
  assert (Hdecl : declared m P_m = true /\ declared m P_c = true /\
                  declared m P_d = true /\ declared m S = true).
  { unfold declared. rewrite Hv.
    destruct Hvars as [[Hv0 _] | [Hv0 _]]; rewrite Hv0; simpl; tauto. }
  destruct Hdecl as (H1 & H2 & H3 & H4).
  assert (Hlen : len_t (params m) = size input_ts) by (rewrite Hp; exact Hn).
  unfold extract_results, ret. eexists. eexists. exists r.
  split; [reflexivity |].
  split; [rewrite length_map, length_seq; exact Hlen |].
  split.
  - rewrite nth_error_map, nth_error_seq.
    destruct (Nat.ltb_spec t (len_t (params m))); [reflexivity | lia].
  - simpl. unfold var_value. rewrite H1, H2, H3, H4, Hl, Hr. simpl.
    repeat split; reflexivity.
Qed.

(** X14.  What the solver minimises is what the table reports: when the
    profit is computed with the time step of the model on the time series
    the model was built from, the profits of the table add up to minus the
    objective of the loaded schedule, the profits without battery to minus
    the cost of the load alone, and the battery profits to the difference. *)
Theorem total_profit_is_minus_the_objective
    (solver : Solver) (input_ts : gmap Z ts_row)
    (input_scalar finance_inputs : gmap string R)
    (m : ConcreteModel) (results : SolverResults) (a : Assignment) (dt : R)
    (df : list result_row) (npv : R) (daily : list daily_row) :
  battery_model solver input_ts input_scalar = inr (m, results) \/
  battery_model_no_eff solver input_ts input_scalar = inr (m, results) ->
  loaded m = Some a ->
  (0 < size input_ts)%nat ->
  input_scalar !! "Time Step (hours)" = Some dt ->
  finance_inputs !! "Time Step (hours)" = Some dt ->
  calculate_profit m input_ts finance_inputs = inr (df, npv, daily) ->
  Series_sum (map profit df) = - objective (params m) a /\
  Series_sum (map no_battery_profit df) = - no_battery_cost (params m) /\
  Series_sum (map battery_profit df)
  = no_battery_cost (params m) - objective (params m) a.
Proof.
  intros Hret Hl _ Hdt Hfdt Hcp.
  destruct (returned_model _ _ _ _ _ Hret) as (m0 & Hb & Hp & Hv & _).
  pose proof (built_cases _ _ _ Hb) as (_ & _ & _ & _ & Hdt' & _).
  rewrite Hdt in Hdt'. injection Hdt' as Hdt'.
  pose proof (built_rules _ _ _ Hb) as Hvars.
  assert (Hdecl : declared m P_m = true).
  { unfold declared. rewrite Hv.
    destruct Hvars as [[Hv0 _] | [Hv0 _]]; rewrite Hv0; reflexivity. }
  apply calculate_profit_spec in Hcp.
  destruct Hcp as (df_out & dt' & r & i & Hex & Hfdt' & _ & _ & Hdf & _).
  rewrite Hfdt in Hfdt'. injection Hfdt' as <-.
  unfold extract_results, ret in Hex. injection Hex as <-.
  subst df. rewrite !map_map.
  assert (Hrow : forall t, In t (seq 0 (len_t (params m))) ->
             exists r0, input_ts !! Z.of_nat t = Some r0 /\
                        LMP (params m) t = row_LMP r0 /\
                        P_l (params m) t = row_load r0).
  { intros t Ht. apply in_seq in Ht. rewrite Hp.
    apply (built_series input_ts input_scalar); [exact Hb | rewrite <- Hp; lia]. }
  assert (S1 : Series_sum
                 (map (fun t => profit (profit_columns dt
                    {| c_P_d := var_value m P_d t; c_P_c := var_value m P_c t;
                       c_S := var_value m S t; c_P_m := var_value m P_m t;
                       c_u := var_value m u t;
                       c_time := row_INTERVAL_START <$> input_ts !! Z.of_nat t;
                       c_LMP := row_LMP <$> input_ts !! Z.of_nat t;
                       c_load := row_load <$> input_ts !! Z.of_nat t |}))
                    (seq 0 (len_t (params m))))
               = Rsum (map (fun t => -1 * LMP (params m) t * a P_m t * dt)
                         (seq 0 (len_t (params m))))).
  { apply Series_sum_of_present. intros t Ht.
    destruct (Hrow t Ht) as (r0 & Hr0 & HL & _).
    simpl. unfold var_value. rewrite Hdecl, Hl, Hr0, HL. reflexivity. }
  assert (S2 : Series_sum
                 (map (fun t => no_battery_profit (profit_columns dt
                    {| c_P_d := var_value m P_d t; c_P_c := var_value m P_c t;
                       c_S := var_value m S t; c_P_m := var_value m P_m t;
                       c_u := var_value m u t;
                       c_time := row_INTERVAL_START <$> input_ts !! Z.of_nat t;
                       c_LMP := row_LMP <$> input_ts !! Z.of_nat t;
                       c_load := row_load <$> input_ts !! Z.of_nat t |}))
                    (seq 0 (len_t (params m))))
               = Rsum (map (fun t => -1 * LMP (params m) t * P_l (params m) t * dt)
                         (seq 0 (len_t (params m))))).
  { apply Series_sum_of_present. intros t Ht.
    destruct (Hrow t Ht) as (r0 & Hr0 & HL & HP).
    simpl. rewrite Hr0, HL, HP. reflexivity. }
  assert (S3 : Series_sum
                 (map (fun t => battery_profit (profit_columns dt
                    {| c_P_d := var_value m P_d t; c_P_c := var_value m P_c t;
                       c_S := var_value m S t; c_P_m := var_value m P_m t;
                       c_u := var_value m u t;
                       c_time := row_INTERVAL_START <$> input_ts !! Z.of_nat t;
                       c_LMP := row_LMP <$> input_ts !! Z.of_nat t;
                       c_load := row_load <$> input_ts !! Z.of_nat t |}))
                    (seq 0 (len_t (params m))))
               = Rsum (map (fun t => -1 * LMP (params m) t * a P_m t * dt
                                     - -1 * LMP (params m) t * P_l (params m) t * dt)
                         (seq 0 (len_t (params m))))).
  { apply Series_sum_of_present. intros t Ht.
    destruct (Hrow t Ht) as (r0 & Hr0 & HL & HP).
    simpl. unfold var_value. rewrite Hdecl, Hl, Hr0, HL, HP. reflexivity. }
  rewrite S1, S2, S3. unfold objective, no_battery_cost.
  rewrite Hp, <- Hdt'. fold (Rsum (map (fun t => LMP (params m0) t * a P_m t * dt)
                                     (seq 0 (len_t (params m0))))).
  generalize (seq 0 (len_t (params m0))). intros l.
  unfold Rsum. induction l as [| t l (IH1 & IH2 & IH3)]; simpl.
  - repeat split; lra.
  - rewrite IH1, IH2, IH3. repeat split; lra.
Qed.

Lemma extraction_of_the_solved_series_is_complete_witness :
  exists (df : list df_row) (row : df_row) (r : ts_row),
    extract_results (demo_mixed (Some charge_first)) demo_ts = inr df /\
    length df = size demo_ts /\
    nth_error df 1 = Some row /\
    demo_ts !! Z.of_nat 1 = Some r /\
    c_time row = Some (row_INTERVAL_START r) /\
    c_LMP row = Some (row_LMP r) /\
    c_load row = Some (row_load r) /\
    c_P_m row = Some (charge_first P_m 1%nat) /\
    c_P_c row = Some (charge_first P_c 1%nat) /\
    c_P_d row = Some (charge_first P_d 1%nat) /\
    c_S row = Some (charge_first S 1%nat).
Proof.
  apply (extraction_of_the_solved_series_is_complete
           (reports optimal (Some charge_first)) demo_ts demo_scalar
           (demo_mixed (Some charge_first)) {| termination_condition := optimal |}).
  - right. reflexivity.
  - reflexivity.
  - vm_compute. lia.
Defined.

Lemma total_profit_is_minus_the_objective_witness :
  Series_sum (map profit (map (profit_columns 24) (demo_df_out charge_first)))
  = - objective (params (demo_mixed (Some charge_first))) charge_first /\
  Series_sum (map no_battery_profit (map (profit_columns 24) (demo_df_out charge_first)))
  = - no_battery_cost (params (demo_mixed (Some charge_first))) /\
  Series_sum (map battery_profit (map (profit_columns 24) (demo_df_out charge_first)))
  = no_battery_cost (params (demo_mixed (Some charge_first)))
    - objective (params (demo_mixed (Some charge_first))) charge_first.
Proof.
  apply (total_profit_is_minus_the_objective
           (reports optimal (Some charge_first)) demo_ts demo_scalar
           (demo_finance 24 0)
           (demo_mixed (Some charge_first)) {| termination_condition := optimal |}
           charge_first 24 _ (demo_npv 24 0 charge_first)
           (demo_daily 24 0 charge_first)).
  - right. reflexivity.
  - reflexivity.
  - vm_compute. lia.
  - reflexivity.
  - reflexivity.
  - reflexivity.
Defined.

(** *** Errors of the profit computation *)

(** X15.  For a model with loaded values and a time series that has a row
    for at least one index of the horizon, the profit computation raises
    exactly when [finance_inputs] lacks the time step, the real discount rate
    or the inflation rate, and then it raises [KeyError]; a time series of
    another length than the horizon is no error. *)
Theorem calculate_profit_raises_only_KeyError
    (m : ConcreteModel) (input_ts : gmap Z ts_row) (finance_inputs : gmap string R)
    (a : Assignment) (t : nat) :
  loaded m = Some a ->
  (t < len_t (params m))%nat ->
  is_Some (input_ts !! Z.of_nat t) ->
  ((exists e, calculate_profit m input_ts finance_inputs = inl e) <->
   finance_inputs !! "Time Step (hours)" = None \/
   finance_inputs !! "Real Discount Rate (%)" = None \/
   finance_inputs !! "Inflation Rate (%)" = None) /\
  (forall e, calculate_profit m input_ts finance_inputs = inl e -> e = KeyError).
Proof.
  intros _ _ _.
  unfold calculate_profit, extract_results, col. simpl.
  destruct (finance_inputs !! "Time Step (hours)") as [dt |]; simpl.
  - destruct (finance_inputs !! "Real Discount Rate (%)") as [r |]; simpl.
    + destruct (finance_inputs !! "Inflation Rate (%)") as [i |]; simpl.
      * split; [| intros e H; discriminate].
        split; [intros [e H]; discriminate |].
        intros [H | [H | H]]; discriminate.
      * split; [| intros e H; inversion H; reflexivity].
        split; [tauto | eauto].
    + split; [| intros e H; inversion H; reflexivity].
      split; [tauto | eauto].
  - split; [| intros e H; inversion H; reflexivity].
    split; [tauto | eauto].
Qed.

Lemma calculate_profit_raises_only_KeyError_witness :
  ((exists e, calculate_profit (demo_mixed (Some charge_first)) short_ts
                documented_finance = inl e) <->
   documented_finance !! "Time Step (hours)" = None \/
   documented_finance !! "Real Discount Rate (%)" = None \/
   documented_finance !! "Inflation Rate (%)" = None) /\
  (forall e, calculate_profit (demo_mixed (Some charge_first)) short_ts
               documented_finance = inl e -> e = KeyError).
Proof.
  apply (calculate_profit_raises_only_KeyError (demo_mixed (Some charge_first))
           short_ts documented_finance charge_first 0%nat).
  - reflexivity.
  - simpl. lia.
  - exists {| row_INTERVAL_START := 0; row_LMP := 10; row_load := 2 |}.
    reflexivity.
Defined.

(** *** Discounting at a nominal rate of zero *)

Lemma powerRZ_one (k : Z) : powerRZ 1 k = 1.
Proof.
  destruct k as [| p | p]; simpl; [reflexivity | apply pow1 |].
  rewrite pow1. apply Rinv_1.
Qed.

Lemma spec_total_all_timestamped (rows : list result_row) :
  (forall r, In r rows -> is_Some (c_time (base r))) ->
  spec_total rows = Series_sum (map battery_profit rows).
Proof.
  induction rows as [| r rows IH]; simpl; intros H; [reflexivity |].
  destruct (H r (or_introl eq_refl)) as [ts Hts]. rewrite Hts.
  rewrite IH by (intros; apply H; right; assumption).
  destruct (battery_profit r); reflexivity.
Qed.

(** X16.  For a model with loaded values and a table with a timestamp:
    when the real discount rate and the inflation rate cancel,
    [(1 + r)*(1 + i) = 1], nothing is discounted: the NPV is the battery
    profit of all intervals that carry a timestamp, the sum of the whole
    battery profit column when no timestamp is missing. *)
Theorem npv_at_zero_nominal_rate
    (m : ConcreteModel) (input_ts : gmap Z ts_row) (finance_inputs : gmap string R)
    (r i : R) (df : list result_row) (npv : R) (daily : list daily_row) :
  is_Some (loaded m) ->
  calculate_profit m input_ts finance_inputs = inr (df, npv, daily) ->
  (exists row, In row df /\ is_Some (c_time (base row))) ->
  finance_inputs !! "Real Discount Rate (%)" = Some r ->
  finance_inputs !! "Inflation Rate (%)" = Some i ->
  (1 + r) * (1 + i) = 1 ->
  npv = spec_total df /\
  ((forall row, In row df -> is_Some (c_time (base row))) ->
   npv = Series_sum (map battery_profit df)).
Proof.
  intros _ Hcp _ Hr Hi Hnom.
  apply calculate_profit_spec in Hcp.
  destruct Hcp as (df_out & dt & r' & i' & _ & _ & Hr' & Hi' & _ & Hdaily & Hnpv).
  rewrite Hr in Hr'. rewrite Hi in Hi'. injection Hr' as <-. injection Hi' as <-.
  assert (Hn : npv = spec_total df).
  { rewrite Hnpv, npv_as_sum, Hdaily, map_map.
    rewrite <- daily_totals_conserve_profit.
    apply Rsum_ext_in. intros bin _. simpl.
    rewrite daily_base. replace (1 + ((1 + r) * (1 + i) - 1)) with 1 by lra.
    rewrite Rpower_one_base, powerRZ_one. lra. }
  split; [exact Hn |].
  intros Hall. rewrite Hn. apply spec_total_all_timestamped. exact Hall.
Qed.

Lemma npv_at_zero_nominal_rate_witness :
  demo_npv 24 0 charge_first
  = spec_total (map (profit_columns 24) (demo_df_out charge_first)) /\
  ((forall row, In row (map (profit_columns 24) (demo_df_out charge_first)) ->
      is_Some (c_time (base row))) ->
   demo_npv 24 0 charge_first
   = Series_sum (map battery_profit (map (profit_columns 24) (demo_df_out charge_first)))).
Proof.
  apply (npv_at_zero_nominal_rate (demo_mixed (Some charge_first)) demo_ts
           (demo_finance 24 0) 0 0 _ _ (demo_daily 24 0 charge_first)).
  - eexists. reflexivity.
  - reflexivity.
  - eexists. split; [left; reflexivity | eexists; reflexivity].
  - reflexivity.
  - reflexivity.
  - lra.
Defined.

(** *** The shape of the daily table *)

Lemma ts_min_unique (l : list Z) (lo : Z) :
  In lo l -> (forall x, In x l -> (lo <= x)%Z) -> ts_min l = Some lo.
Proof.
  intros Hin Hle. destruct (ts_min_max_some l lo Hin) as (s & _ & Hs & _).
  destruct (ts_min_spec _ _ Hs) as [Hs1 Hs2].
  rewrite Hs. f_equal. pose proof (Hle s Hs1). pose proof (Hs2 lo Hin). lia.
Qed.

Lemma ts_max_unique (l : list Z) (hi : Z) :
  In hi l -> (forall x, In x l -> (x <= hi)%Z) -> ts_max l = Some hi.
Proof.
  intros Hin Hle. destruct (ts_min_max_some l hi Hin) as (_ & s & _ & Hs).
  destruct (ts_max_spec _ _ Hs) as [Hs1 Hs2].
  rewrite Hs. f_equal. pose proof (Hle s Hs1). pose proof (Hs2 hi Hin). lia.
Qed.

Lemma spec_day_total_empty (d : Z) (rows : list result_row) :
  (forall r x, In r rows -> c_time (base r) = Some x -> (x / ns_per_day)%Z <> d) ->
  spec_day_total d rows = 0.
Proof.
  induction rows as [| r rows IH]; simpl; intros H; [reflexivity |].
  assert (IH' : spec_day_total d rows = 0)
    by (apply IH; intros r0 x Hr0; apply H; right; exact Hr0).
  destruct (c_time (base r)) as [ts |] eqn:Et; [| exact IH'].
  destruct (battery_profit r) as [p |]; [| exact IH'].
  destruct (Z.eqb_spec (ts / ns_per_day) d) as [E | E]; [| exact IH'].
  exfalso. apply (H r ts); [left; reflexivity | exact Et | exact E].
Qed.

(** X17.  The daily table has one row for every calendar day from the day
    of the earliest timestamp [lo] to the day of the latest timestamp [hi],
    days without any interval included, in calendar order: row [k] is
    labelled by the midnight of day [lo's day + k], its [day_of_sim] is [k]
    when [lo] is a midnight and [k - 1] otherwise, and its battery profit is
    0 when no interval falls on that day. *)
Theorem daily_table_shape
    (m : ConcreteModel) (input_ts : gmap Z ts_row) (finance_inputs : gmap string R)
    (df : list result_row) (npv : R) (daily : list daily_row) (lo hi : Z) :
  is_Some (loaded m) ->
  calculate_profit m input_ts finance_inputs = inr (df, npv, daily) ->
  In lo (timestamps df) -> (forall x, In x (timestamps df) -> (lo <= x)%Z) ->
  In hi (timestamps df) -> (forall x, In x (timestamps df) -> (x <= hi)%Z) ->
  length daily = Z.to_nat (hi / ns_per_day - lo / ns_per_day + 1) /\
  forall k row, nth_error daily k = Some row ->
    day row = ((lo / ns_per_day + Z.of_nat k) * ns_per_day)%Z /\
    day_of_sim row
    = (Z.of_nat k - (if (lo mod ns_per_day =? 0)%Z then 0 else 1))%Z /\
    ((forall r x, In r df -> c_time (base r) = Some x ->
        (x / ns_per_day)%Z <> (lo / ns_per_day + Z.of_nat k)%Z) ->
     daily_battery_profit row = 0).
Proof.
  intros _ Hcp Hlo Hlo' Hhi Hhi'.
  apply calculate_profit_spec in Hcp.
  destruct Hcp as (df_out & dt & r & i & _ & _ & _ & _ & _ & Hdaily & _).
  rewrite (ts_min_unique _ _ Hlo Hlo') in Hdaily. simpl in Hdaily.
  unfold resample_D_sum in Hdaily.
  rewrite (ts_min_unique _ _ Hlo Hlo'), (ts_max_unique _ _ Hhi Hhi') in Hdaily.
  unfold day_range, date_of in Hdaily. rewrite !map_map in Hdaily.
  split.
  - rewrite Hdaily, length_map, length_seq. reflexivity.
  - intros k row Hk. rewrite Hdaily, nth_error_map, nth_error_seq in Hk.
    destruct (k <? Z.to_nat (hi / ns_per_day - lo / ns_per_day + 1))%nat;
      simpl in Hk; [| discriminate].
    injection Hk as <-. simpl. split; [reflexivity |]. split.
    + rewrite Timedelta_days_of_midnight. unfold date_of. lia.
    + intros Hnone. rewrite day_total_agrees. apply spec_day_total_empty.
      exact Hnone.
Qed.

Lemma daily_table_shape_witness :
  length (demo_daily 24 0 charge_first)
  = Z.to_nat (2 * ns_per_day / ns_per_day - 0 / ns_per_day + 1) /\
  forall k row, nth_error (demo_daily 24 0 charge_first) k = Some row ->
    day row = ((0 / ns_per_day + Z.of_nat k) * ns_per_day)%Z /\
    day_of_sim row
    = (Z.of_nat k - (if (0 mod ns_per_day =? 0)%Z then 0 else 1))%Z /\
    ((forall r x, In r (map (profit_columns 24) (demo_df_out charge_first)) ->
        c_time (base r) = Some x ->
        (x / ns_per_day)%Z <> (0 / ns_per_day + Z.of_nat k)%Z) ->
     daily_battery_profit row = 0).
Proof.
  apply (daily_table_shape (demo_mixed (Some charge_first)) demo_ts
           (demo_finance 24 0) _ (demo_npv 24 0 charge_first)).
  - eexists. reflexivity.
  - reflexivity.
  - left. reflexivity.
  - intros x Hx. simpl in Hx. destruct Hx as [<- | [<- | [<- | []]]];
      vm_compute; discriminate.
  - right. right. left. reflexivity.
  - intros x Hx. simpl in Hx. destruct Hx as [<- | [<- | [<- | []]]];
      vm_compute; discriminate.
Defined.

(** ** Properties of the OASIS helpers *)

Local Open Scope list_scope.

Lemma contains_char_append (c : ascii) (s1 s2 : string) :
  contains_char c (String.append s1 s2)
  = (contains_char c s1 || contains_char c s2)%bool.
Proof.
  induction s1 as [| x s1 IH]; simpl; [reflexivity |].
  destruct (Ascii.eqb x c); [reflexivity | exact IH].
Qed.

Lemma split_once_at_first (c : ascii) (s1 s2 : string) :
  contains_char c s1 = false ->
  split_once c (String.append s1 (String c s2)) = [s1; s2].
Proof.
  induction s1 as [| x s1 IH]; simpl; intros H.
  - rewrite Ascii.eqb_refl. reflexivity.
  - destruct (Ascii.eqb x c); [discriminate |]. rewrite IH by exact H. reflexivity.
Qed.

(** X18.  [_strip_ns] returns the text after the first closing brace of the
    tag, wherever that brace stands: a tag without a brace is returned
    unchanged, and a tag in the form [{namespace}name] gives [name]. *)
Theorem strip_ns_drops_through_first_brace (tag ns name : string) :
  (contains_char "}" tag = false -> _strip_ns tag = tag) /\
  (contains_char "}" ns = false ->
   _strip_ns (String.append ns (String "}" name)) = name).
Proof.
  split; intros H; unfold _strip_ns.
  - rewrite H. reflexivity.
  - rewrite contains_char_append. simpl.
    rewrite Bool.orb_true_r, split_once_at_first by exact H. reflexivity.
Qed.

Lemma strip_ns_drops_through_first_brace_witness :
  _strip_ns "ELEMENT" = "ELEMENT" /\
  _strip_ns (String.append "{http://example.com" (String "}" "ELEMENT")) = "ELEMENT".
Proof.
  destruct (strip_ns_drops_through_first_brace "ELEMENT" "{http://example.com"
              "ELEMENT") as [H1 H2].
  split; [apply H1 | apply H2]; reflexivity.
Defined.

Lemma startswith_spec (prefix l : list byte) :
  startswith prefix l = true <-> exists rest, l = prefix ++ rest.
Proof.
  revert l. induction prefix as [| p prefix IH]; intros l; simpl.
  - split; [eauto | reflexivity].
  - destruct l as [| c l].
    + split; [discriminate | intros [rest H]; discriminate].
    + rewrite Bool.andb_true_iff, IH. split.
      * intros [Hpc [rest ->]]. apply Byte.byte_dec_bl in Hpc. subst. eauto.
      * intros [rest H]. injection H as -> ->. split; [| eauto].
        apply Byte.byte_dec_lb. reflexivity.
Qed.

Lemma lstrip_spec (l : list byte) :
  exists ws, l = ws ++ lstrip l /\ forallb is_space ws = true /\
             match lstrip l with
             | [] => True
             | c :: _ => is_space c = false
             end.
Proof.
  induction l as [| c l (ws & Hl & Hws & Hhd)]; simpl.
  - exists []. auto.
  - destruct (is_space c) eqn:E.
    + exists (c :: ws). simpl. rewrite E, Hws. split; [congruence | auto].
    + exists []. simpl. auto.
Qed.

Lemma lstrip_blank_prefix (ws l : list byte) :
  forallb is_space ws = true -> lstrip (ws ++ l) = lstrip l.
Proof.
  induction ws as [| c ws IH]; simpl; intros H; [reflexivity |].
  apply Bool.andb_true_iff in H. destruct H as [Hc Hws].
  rewrite Hc. apply IH. exact Hws.
Qed.

(** X19.  A file is taken for XML exactly when the first byte that is not
    white space among its first 20 bytes is ["<"]; the test for ["<?xml"]
    adds nothing to the test for ["<"], and nothing after the first 20 bytes
    is looked at. *)
Theorem is_xml_file_iff (raw_bytes : list byte) :
  (is_xml_file raw_bytes = true <->
   exists ws rest,
     firstn 20 raw_bytes = ws ++ x3c :: rest /\ forallb is_space ws = true) /\
  is_xml_file raw_bytes
  = startswith (list_byte_of_string "<") (lstrip (firstn 20 raw_bytes)) /\
  is_xml_file raw_bytes = is_xml_file (firstn 20 raw_bytes).
Proof.
  assert (Hred : forall l, (startswith (list_byte_of_string "<?xml") l
                            || startswith (list_byte_of_string "<") l)%bool
                           = startswith (list_byte_of_string "<") l).
  { intros l. destruct l as [| c l]; [reflexivity |].
    change (list_byte_of_string "<") with [x3c].
    change (list_byte_of_string "<?xml") with [x3c; x3f; x78; x6d; x6c].
    simpl. destruct (Byte.eqb x3c c); simpl;
      [apply Bool.orb_true_r | reflexivity]. }
  assert (H2 : is_xml_file raw_bytes
               = startswith (list_byte_of_string "<") (lstrip (firstn 20 raw_bytes)))
    by (unfold is_xml_file; apply Hred).
  split; [| split; [exact H2 |]].
  - rewrite H2. change (list_byte_of_string "<") with [x3c].
    rewrite startswith_spec. split.
    + intros [rest Hrest].
      destruct (lstrip_spec (firstn 20 raw_bytes)) as (ws & Hl & Hws & _).
      exists ws, rest. rewrite Hl at 1. rewrite Hrest. auto.
    + intros (ws & rest & Hl & Hws). exists rest.
      rewrite Hl, lstrip_blank_prefix by exact Hws. reflexivity.
  - unfold is_xml_file. rewrite firstn_firstn. reflexivity.
Qed.

Lemma forallb_firstn {A : Type} (f : A -> bool) (n : nat) (l : list A) :
  forallb f l = true -> forallb f (firstn n l) = true.
Proof.
  revert l. induction n as [| n IH]; intros [| x l]; simpl; try reflexivity.
  intros H. apply Bool.andb_true_iff in H. destruct H as [Hx Hl].
  rewrite Hx. apply IH. exact Hl.
Qed.

(** X20.  XML that follows 20 or more bytes of white space is not taken for
    XML, whatever it is. *)
Theorem is_xml_file_blind_after_20_blanks (ws document : list byte) :
  forallb is_space ws = true ->
  (20 <= length ws)%nat ->
  is_xml_file (ws ++ document) = false.
Proof.
  intros Hws Hlen. unfold is_xml_file.
  rewrite firstn_app.
  replace (20 - length ws)%nat with 0%nat by lia. simpl. rewrite app_nil_r.
  assert (Hblank : forallb is_space (firstn 20 ws) = true)
    by (apply forallb_firstn; exact Hws).
  pose proof (lstrip_blank_prefix (firstn 20 ws) [] Hblank) as H.
  rewrite app_nil_r in H. rewrite H. reflexivity.
Qed.

Lemma is_xml_file_blind_after_20_blanks_witness :
  is_xml_file (repeat x20 20 ++ list_byte_of_string "<?xml version='1.0'?>") = false.
Proof.
  apply (is_xml_file_blind_after_20_blanks (repeat x20 20)).
  - reflexivity.
  - simpl. lia.
Defined.

Lemma bytes_in_spec (needle haystack : list byte) :
  bytes_in needle haystack = true <->
  exists before after, haystack = before ++ needle ++ after.
Proof.
  induction haystack as [| c haystack IH]; simpl.
  - rewrite Bool.orb_false_r, startswith_spec. split.
    + intros [rest H]. exists [], rest. exact H.
    + intros (before & after & H). exists after.
      destruct before; [exact H | discriminate].
  - rewrite Bool.orb_true_iff, startswith_spec, IH. split.
    + intros [[rest H] | (before & after & H)].
      * exists [], rest. exact H.
      * exists (c :: before), after. simpl. congruence.
    + intros (before & after & H). destruct before as [| b before].
      * left. exists after. exact H.
      * right. injection H as _ H. eauto.
Qed.

(** X21.  A raw file counts as an error response exactly when the bytes
    ["ERROR>"] or ["ERR_CODE>"] occur somewhere in it, under any namespace
    prefix and inside data as well as in a tag. *)
Theorem xml_contains_error_iff (raw_bytes : list byte) :
  xml_contains_error raw_bytes = true <->
  exists before after,
    raw_bytes = before ++ list_byte_of_string "ERROR>" ++ after \/
    raw_bytes = before ++ list_byte_of_string "ERR_CODE>" ++ after.
Proof.
  unfold xml_contains_error. rewrite Bool.orb_true_iff, !bytes_in_spec. split.
  - intros [(b & a & H) | (b & a & H)]; exists b, a; auto.
  - intros (b & a & [H | H]); [left | right]; eauto.
Qed.

(** ** Properties of the OASIS parsers *)

Lemma fold_insert_last (key val : element -> string) (l : list element)
    (m : gmap string string) (k : string) :
  fold_left (fun row c => <[key c := val c]> row) l m !! k
  = match rev (List.filter (fun c => String.eqb (key c) k) l) with
    | [] => m !! k
    | c :: _ => Some (val c)
    end.
Proof.
  induction l as [| x l IH] using rev_ind; [reflexivity |].
  rewrite fold_left_app, List.filter_app, rev_app_distr. simpl.
  destruct (String.eqb_spec (key x) k) as [E | E]; simpl.
  - rewrite E. apply lookup_insert_eq.
  - rewrite lookup_insert_ne by exact E. exact IH.
Qed.

Lemma fold_last_match (f : element -> bool) (g : element -> bool)
    (l : list element) (acc : option string * option string) :
  (forall x, f x = true -> g x = false) ->
  fold_left
    (fun (acc : option string * option string) (elem : element) =>
       if f elem then (el_text elem, snd acc)
       else if g elem then (fst acc, el_text elem)
       else acc) l acc
  = (match rev (List.filter f l) with [] => fst acc | e :: _ => el_text e end,
     match rev (List.filter g l) with [] => snd acc | e :: _ => el_text e end).
Proof.
  intros Hfg. induction l as [| x l IH] using rev_ind.
  - destruct acc. reflexivity.
  - rewrite fold_left_app, !List.filter_app, !rev_app_distr, IH. simpl.
    destruct (f x) eqn:Ef.
    + rewrite (Hfg x Ef). reflexivity.
    + destruct (g x); reflexivity.
Qed.

(** X22.  The error code and the description are the texts of the last
    element, in document order, whose tag without its namespace reads
    ERR_CODE, respectively ERR_DESC, in upper case; each is None when there
    is no such element, and also when the last one is empty. *)
Theorem parse_oasis_error_xml_last_element_wins
    (fromstring : list byte -> PyResult element) (upper : string -> string)
    (raw_bytes : list byte) (root : element) :
  fromstring raw_bytes = inr root ->
  let named name :=
    rev (List.filter (fun elem => String.eqb (upper (_strip_ns (el_tag elem))) name)
           (iter root)) in
  parse_oasis_error_xml fromstring upper raw_bytes
  = inr (match named "ERR_CODE" with [] => None | e :: _ => el_text e end,
         match named "ERR_DESC" with [] => None | e :: _ => el_text e end).
Proof.
  intros Hroot named. unfold parse_oasis_error_xml. rewrite Hroot. simpl.
  unfold ret. f_equal.
  apply (fold_last_match
           (fun elem => String.eqb (upper (_strip_ns (el_tag elem))) "ERR_CODE")
           (fun elem => String.eqb (upper (_strip_ns (el_tag elem))) "ERR_DESC")).
  intros x Hx. apply String.eqb_eq in Hx. rewrite Hx. reflexivity.
Qed.

Lemma parse_oasis_error_xml_last_element_wins_witness :
  parse_oasis_error_xml
    (fun _ => inr (Element "OASISReport" None
                     [Element "{http://www.caiso.com/soa}ERR_CODE" (Some "1000") [];
                      Element "ERR_DESC" (Some "No data") [];
                      Element "ERR_CODE" None []]))
    (fun s => s) []
  = inr (None, Some "No data").
Proof.
  exact (parse_oasis_error_xml_last_element_wins
           (fun _ => inr (Element "OASISReport" None
                            [Element "{http://www.caiso.com/soa}ERR_CODE" (Some "1000") [];
                             Element "ERR_DESC" (Some "No data") [];
                             Element "ERR_CODE" None []]))
           (fun s => s) [] _ eq_refl).
Defined.

(** X23.  [parse_oasis_xml] raises ValueError exactly when no element is a
    REPORT_DATA; otherwise the frame has one row for each REPORT_DATA
    element, in document order, and a cell of a row holds the stripped text
    of the last child of that element whose tag names the column. *)
Theorem parse_oasis_xml_rows
    (fromstring : list byte -> PyResult element) (upper strip : string -> string)
    (raw_bytes : list byte) (root : element) :
  fromstring raw_bytes = inr root ->
  let report_rows :=
    List.filter (fun elem => String.eqb (upper (_strip_ns (el_tag elem))) "REPORT_DATA")
      (iter root) in
  (report_rows = [] ->
   parse_oasis_xml fromstring upper strip raw_bytes = inl ValueError) /\
  (report_rows <> [] ->
   exists df,
     parse_oasis_xml fromstring upper strip raw_bytes = inr df /\
     length df = length report_rows /\
     forall (i : nat) (rpt : element),
       report_rows !! i = Some rpt ->
       exists row,
         df !! i = Some row /\
         forall k : string,
           row !! k
           = match rev (List.filter
                          (fun child => String.eqb (upper (_strip_ns (el_tag child))) k)
                          (el_children rpt)) with
             | [] => None
             | child :: _ => Some (strip (default EmptyString (el_text child)))
             end).
Proof.
  intros Hroot report_rows. unfold parse_oasis_xml. rewrite Hroot. simpl.
  fold report_rows. split.
  - intros E. rewrite E. reflexivity.
  - intros Hne. destruct report_rows as [| r rs] eqn:E; [congruence |].
    eexists. split; [reflexivity |]. split; [apply length_map |].
    intros i rpt Hi. rewrite list_lookup_fmap, Hi. simpl.
    eexists. split; [reflexivity |]. intros k.
    rewrite (fold_insert_last
               (fun child => upper (_strip_ns (el_tag child)))
               (fun child => strip (default EmptyString (el_text child)))).
    rewrite lookup_empty. reflexivity.
Qed.

Lemma parse_oasis_xml_rows_witness :
  parse_oasis_xml
    (fun _ => inr (Element "OASISReport" None
                     [Element "REPORT_DATA" None
                        [Element "VALUE" (Some "31.5") [];
                         Element "VALUE" (Some "32.5") []]]))
    (fun s => s) (fun s => s) []
  <> inl ValueError.
Proof.
  destruct (parse_oasis_xml_rows
              (fun _ => inr (Element "OASISReport" None
                               [Element "REPORT_DATA" None
                                  [Element "VALUE" (Some "31.5") [];
                                   Element "VALUE" (Some "32.5") []]]))
              (fun s => s) (fun s => s) [] _ eq_refl) as [_ H].
  destruct H as (df & Hdf & _); [discriminate |].
  rewrite Hdf. discriminate.
Defined.

(** ** Properties of reading an archive *)




Lemma read_members_filter
    (fromstring : list byte -> PyResult element)
    (read_csv : list byte -> PyResult (list (gmap string string)))
    (upper lower strip : string -> string)
    (members : list (string * list byte)) :
  forall dfs out,
    read_members fromstring read_csv upper lower strip
      (List.filter
         (fun member => str_endswith ".csv" (lower (fst member))
                        || str_endswith ".xml" (lower (fst member)))
         members) dfs out
    = read_members fromstring read_csv upper lower strip members dfs out.
Proof.
  induction members as [| [fname raw] rest IH]; intros dfs out; [reflexivity |].
  simpl.
  destruct (str_endswith ".csv" (lower fname) || str_endswith ".xml" (lower fname))
    eqn:Ename; simpl.
  - rewrite Ename. simpl.
    destruct (is_xml_file raw).
    + destruct (xml_contains_error raw).
      * destruct (parse_oasis_error_xml fromstring upper raw) as [e0 | [code desc]];
          [reflexivity | apply IH].
      * destruct (parse_oasis_xml fromstring upper strip raw); apply IH.
    + destruct (read_csv raw); apply IH.
  - apply IH.
Qed.



(** X25.  Members whose name, in lower case, ends neither in [.csv] nor in
    [.xml] change neither the frame returned nor what is printed. *)
Theorem read_oasis_zip_ignores_other_files
    (fromstring : list byte -> PyResult element)
    (read_csv : list byte -> PyResult (list (gmap string string)))
    (upper lower strip : string -> string)
    (members : list (string * list byte)) :
  read_oasis_zip fromstring read_csv upper lower strip
    (List.filter
       (fun member => str_endswith ".csv" (lower (fst member))
                      || str_endswith ".xml" (lower (fst member)))
       members)
  = read_oasis_zip fromstring read_csv upper lower strip members.
Proof.
  unfold read_oasis_zip. rewrite read_members_filter. reflexivity.
Qed.

(** ** Properties of the weekly requests *)

Lemma tiles_app (s m e : Z) (ws1 ws2 : list (Z * Z)) :
  tiles s m ws1 -> tiles m e ws2 -> tiles s e (ws1 ++ ws2).
Proof.
  revert s. induction ws1 as [| [a b] ws1 IH]; simpl; intros s H1 H2.
  - subst. exact H2.
  - destruct H1 as (Ha & Hab & Hw & H1). repeat split; try assumption.
    apply IH; assumption.
Qed.

Lemma pairs_chain (first : Z) (n : nat) :
  forall a : nat,
    tiles (first + 7 * Z.of_nat a) (first + 7 * Z.of_nat (a + n))
      (pairs (map (fun k => (first + 7 * Z.of_nat k)%Z) (seq a (Datatypes.S n)))).
Proof.
  induction n as [| n IH]; intros a.
  - simpl. f_equal. lia.
  - change (seq a (Datatypes.S (Datatypes.S n)))
      with (a :: Datatypes.S a :: seq (Datatypes.S (Datatypes.S a)) n).
    cbn [map pairs tiles]. repeat split; try lia.
    specialize (IH (Datatypes.S a)).
    replace (Datatypes.S a + n)%nat with (a + Datatypes.S n)%nat in IH by lia. exact IH.
Qed.

Lemma last_chain (f : nat -> Z) (n : nat) :
  forall (a : nat) (d : Z), List.last (map f (seq a (Datatypes.S n))) d = f (a + n)%nat.
Proof.
  induction n as [| n IH]; intros a d.
  - simpl. f_equal. lia.
  - transitivity (List.last (map f (seq (Datatypes.S a) (Datatypes.S n))) d);
      [reflexivity |].
    rewrite IH. f_equal. lia.
Qed.

Lemma weekly_range_spec (start_date end_date : Z) :
  (7 < end_date - start_date)%Z ->
  exists d0 ds,
    weekly_range start_date end_date = d0 :: ds /\
    (start_date <= d0 <= start_date + 6)%Z /\
    (List.last (d0 :: ds) d0 <= end_date)%Z /\
    (end_date - List.last (d0 :: ds) d0 <= 6)%Z /\
    tiles d0 (List.last (d0 :: ds) d0) (pairs (d0 :: ds)).
Proof.
  intros Hlong. unfold weekly_range.
  set (first := (start_date + (3 - start_date) mod 7)%Z).
  assert (Hfirst : (start_date <= first <= start_date + 6)%Z).
  { unfold first. pose proof (Z.mod_pos_bound (3 - start_date) 7). lia. }
  replace (first <=? end_date)%Z with true by (symmetry; apply Z.leb_le; lia).
  set (q := ((end_date - first) / 7)%Z).
  assert (Hq : (0 <= q /\ 7 * q <= end_date - first < 7 * q + 7)%Z).
  { unfold q. pose proof (Z.div_mod (end_date - first) 7).
    pose proof (Z.mod_pos_bound (end_date - first) 7).
    assert (0 <= (end_date - first) / 7)%Z by (apply Z.div_pos; lia). lia. }
  replace (Z.to_nat (q + 1)) with (Datatypes.S (Z.to_nat q)) by lia.
  set (f := fun k : nat => (first + 7 * Z.of_nat k)%Z).
  exists (f 0%nat), (map f (seq 1 (Z.to_nat q))).
  change (f 0%nat :: map f (seq 1 (Z.to_nat q))) with (map f (seq 0 (Datatypes.S (Z.to_nat q)))).
  rewrite last_chain.
  assert (Hlast : f (0 + Z.to_nat q)%nat = (first + 7 * q)%Z) by (unfold f; lia).
  assert (H0 : f 0%nat = first) by (unfold f; lia).
  split; [reflexivity |]. rewrite Hlast, H0.
  split; [exact Hfirst |]. split; [lia |]. split; [lia |].
  pose proof (pairs_chain first (Z.to_nat q) 0) as Ht.
  fold f in Ht. replace (first + 7 * Z.of_nat 0)%Z with first in Ht by lia.
  replace (first + 7 * Z.of_nat (0 + Z.to_nat q))%Z with (first + 7 * q)%Z in Ht by lia.
  exact Ht.
Qed.

Lemma windows_app {Row : Type} (t1 t2 : list (event Row)) :
  windows (t1 ++ t2) = windows t1 ++ windows t2.
Proof. apply omap_app. Qed.

Lemma fetched_app {Row : Type} (fetch : Z -> Z -> PyResult (list Row))
    (w1 w2 : list (Z * Z)) :
  fetched fetch (w1 ++ w2) = fetched fetch w1 ++ fetched fetch w2.
Proof. apply flat_map_app. Qed.

Lemma weekly_loop_inr {Row : Type} (fetch : Z -> Z -> PyResult (list Row))
    (sleep_time : Z) (periodic_save : bool) (date_range : list Z) :
  forall weekly_data trace trace' weekly_data',
    weekly_loop fetch sleep_time periodic_save date_range weekly_data trace
    = (trace', inr weekly_data') ->
    windows trace' = windows trace ++ pairs date_range /\
    concat weekly_data' = concat weekly_data ++ fetched fetch (pairs date_range).
Proof.
  induction date_range as [| a rest IH]; intros wd tr tr' wd' H.
  - simpl in H. injection H as <- <-. simpl. rewrite !app_nil_r. auto.
  - destruct rest as [| b rest].
    + simpl in H. injection H as <- <-. simpl. rewrite !app_nil_r. auto.
    + cbn [weekly_loop] in H. unfold append_week in H.
      destruct (fetch a b) as [err | df] eqn:Ef; [discriminate |].
      unfold ret in H. apply IH in H. destruct H as [Hw Hd].
      cbn [pairs]. split.
      * rewrite Hw. destruct periodic_save; rewrite !windows_app; simpl;
          rewrite ?app_nil_r, <- ?app_assoc; reflexivity.
      * rewrite Hd, concat_app. unfold fetched at 2. cbn [flat_map fst snd].
        rewrite Ef. simpl. rewrite app_nil_r, <- app_assoc. reflexivity.
Qed.


Lemma paced_snoc {Row : Type} (sleep_time : Z) (trace : list (event Row))
    (ev : event Row) :
  paced sleep_time trace ->
  (forall a b, ev <> Fetch a b) ->
  paced sleep_time (trace ++ [ev]).
Proof.
  intros Hp Hev. induction trace as [| x trace IH].
  - simpl. auto.
  - destruct Hp as [Hx Hp]. specialize (IH Hp).
    change ((x :: trace) ++ [ev]) with (x :: (trace ++ [ev])).
    split; [| exact IH].
    destruct trace as [| y trace]; [| exact Hx].
    simpl. destruct ev; auto. exfalso. eapply Hev. reflexivity.
Qed.

Lemma paced_sleep_fetch {Row : Type} (sleep_time : Z) (trace : list (event Row))
    (a b : Z) :
  paced sleep_time trace ->
  paced sleep_time ((trace ++ [Sleep sleep_time]) ++ [Fetch a b]).
Proof.
  intros Hp. rewrite <- app_assoc. simpl.
  induction trace as [| x trace IH].
  - simpl. auto.
  - destruct Hp as [Hx Hp]. specialize (IH Hp).
    change ((x :: trace) ++ [Sleep sleep_time; Fetch a b])
      with (x :: (trace ++ [Sleep sleep_time; Fetch a b])).
    split; [| exact IH].
    destruct trace as [| y trace]; [exact I | exact Hx].
Qed.

Lemma append_week_paced {Row : Type} (fetch : Z -> Z -> PyResult (list Row))
    (sleep_time a b : Z) (weekly_data : list (list Row)) (trace : list (event Row)) :
  paced sleep_time trace ->
  paced sleep_time
    (fst (append_week fetch a b weekly_data (trace ++ [Sleep sleep_time]))).
Proof.
  intros Hp. unfold append_week.
  destruct (fetch a b); simpl; apply paced_sleep_fetch; exact Hp.
Qed.

Lemma weekly_loop_paced {Row : Type} (fetch : Z -> Z -> PyResult (list Row))
    (sleep_time : Z) (periodic_save : bool) (date_range : list Z) :
  forall weekly_data trace,
    paced sleep_time trace ->
    paced sleep_time
      (fst (weekly_loop fetch sleep_time periodic_save date_range weekly_data trace)).
Proof.
  induction date_range as [| a rest IH]; intros wd tr Hp; [exact Hp |].
  destruct rest as [| b rest]; [exact Hp |].
  cbn [weekly_loop].
  pose proof (append_week_paced fetch sleep_time a b wd tr Hp) as Hstep.
  destruct (append_week fetch a b wd (tr ++ [Sleep sleep_time]))
    as [tr1 [err | wd1]]; simpl in Hstep; [exact Hstep |].
  apply IH. destruct periodic_save; [| exact Hstep].
  apply paced_snoc; [exact Hstep | discriminate].
Qed.

(** X26.  When every request succeeds, the windows requested follow each
    other from the start to the end of the range, each at most seven days
    long, and the frame returned holds the rows of the requests in that
    order. *)
Theorem weekly_requests_tile_the_range {Row : Type}
    (fetch_caiso_week : Z -> Z -> PyResult (list Row))
    (start_date end_date sleep_time : Z) (periodic_save : bool) (df : list Row) :
  (start_date < end_date)%Z ->
  snd (get_historical_caiso_lmp fetch_caiso_week start_date end_date
         sleep_time periodic_save) = inr df ->
  tiles start_date end_date
    (windows (fst (get_historical_caiso_lmp fetch_caiso_week start_date end_date
                     sleep_time periodic_save))) /\
  df = fetched fetch_caiso_week
         (windows (fst (get_historical_caiso_lmp fetch_caiso_week start_date end_date
                          sleep_time periodic_save))).
Proof.
  intros Hlt. unfold get_historical_caiso_lmp.
  destruct (7 <? end_date - start_date)%Z eqn:Elong.
  - apply Z.ltb_lt in Elong.
    destruct (weekly_range_spec start_date end_date Elong)
      as (d0 & ds & -> & Hd0 & Hle & Hclose & Htiles).
    cbv zeta.
    set (last := List.last (d0 :: ds) d0) in *.
    assert (Hhead : forall trace weekly_data,
               (if (d0 =? start_date)%Z then ([], ret [])
                else append_week fetch_caiso_week start_date d0 [] [])
               = (trace, inr weekly_data) ->
               tiles start_date d0 (windows trace) /\
               concat weekly_data = fetched fetch_caiso_week (windows trace)).
    { intros trace wd H. destruct (Z.eqb_spec d0 start_date) as [E | E].
      - injection H as <- <-. simpl. auto.
      - unfold append_week in H.
        destruct (fetch_caiso_week start_date d0) as [err | df0] eqn:Ef;
          [discriminate |].
        injection H as <- <-. simpl. rewrite Ef.
        repeat split; try lia. }
    destruct (if (d0 =? start_date)%Z then ([], ret [])
              else append_week fetch_caiso_week start_date d0 [] [])
      as [trace [err | weekly_data]] eqn:Ehead; [discriminate |].
    destruct (Hhead _ _ eq_refl) as [Ht0 Hc0].
    destruct (weekly_loop fetch_caiso_week sleep_time periodic_save (d0 :: ds)
                weekly_data trace) as [trace' [err | weekly_data']] eqn:Eloop;
      [discriminate |].
    destruct (weekly_loop_inr _ _ _ _ _ _ _ _ Eloop) as [Hw Hc].
    assert (Ht1 : tiles start_date last (windows trace'))
      by (rewrite Hw; eapply tiles_app; eassumption).
    assert (Hc1 : concat weekly_data' = fetched fetch_caiso_week (windows trace'))
      by (rewrite Hc, Hw, fetched_app, Hc0; reflexivity).
    destruct (Z.eqb_spec last end_date) as [E | E].
    + simpl. intros H. injection H as <-. rewrite <- E. auto.
    + unfold append_week.
      destruct (fetch_caiso_week last end_date) as [err | df1] eqn:Ef;
        [discriminate |].
      simpl. intros H. injection H as <-.
      rewrite !windows_app. simpl. rewrite app_nil_r. split.
      * eapply tiles_app; [exact Ht1 |]. simpl. repeat split; lia.
      * rewrite concat_app, fetched_app, Hc1. simpl. rewrite Ef, !app_nil_r.
        reflexivity.
  - apply Z.ltb_ge in Elong.
    destruct (fetch_caiso_week start_date end_date) as [err | df0] eqn:Ef;
      [discriminate |].
    simpl. intros H. injection H as <-. rewrite Ef, app_nil_r.
    repeat split; lia.
Qed.

Lemma weekly_requests_tile_the_range_witness :
  tiles 0 20
    (windows (fst (get_historical_caiso_lmp
                     (fun a b => inr [(a, b)]) 0 20 5 true))) /\
  [(0, 3); (3, 10); (10, 17); (17, 20)]%Z
  = fetched (fun a b => inr [(a, b)])
      (windows (fst (get_historical_caiso_lmp
                       (fun a b => inr [(a, b)]) 0 20 5 true))).
Proof.
  apply (weekly_requests_tile_the_range (fun a b => inr [(a, b)]) 0 20 5 true).
  - lia.
  - reflexivity.
Defined.

(** X27.  Every request, unless it is the very first thing the function
    does, comes directly after a sleep of [sleep_time] seconds, whether or
    not the requests succeed. *)
Theorem requests_follow_a_sleep {Row : Type}
    (fetch_caiso_week : Z -> Z -> PyResult (list Row))
    (start_date end_date sleep_time : Z) (periodic_save : bool) :
  paced sleep_time
    (fst (get_historical_caiso_lmp fetch_caiso_week start_date end_date
            sleep_time periodic_save)).
Proof.
  unfold get_historical_caiso_lmp.
  destruct (7 <? end_date - start_date)%Z.
  - destruct (weekly_range start_date end_date) as [| d0 ds]; [exact I |].
    cbv zeta.
    assert (Hhead : paced sleep_time
                      (fst (if (d0 =? start_date)%Z then ([], ret [])
                            else append_week fetch_caiso_week start_date d0 [] []))).
    { destruct (d0 =? start_date)%Z; [exact I |].
      unfold append_week. destruct (fetch_caiso_week start_date d0); simpl; auto. }
    destruct (if (d0 =? start_date)%Z then ([], ret [])
              else append_week fetch_caiso_week start_date d0 [] [])
      as [trace [err | weekly_data]]; simpl in Hhead; [exact Hhead |].
    pose proof (weekly_loop_paced fetch_caiso_week sleep_time periodic_save (d0 :: ds)
                  weekly_data trace Hhead) as Hloop.
    destruct (weekly_loop fetch_caiso_week sleep_time periodic_save (d0 :: ds)
                weekly_data trace) as [trace' [err | weekly_data']];
      simpl in Hloop; [exact Hloop |].
    destruct (List.last (d0 :: ds) d0 =? end_date)%Z; [exact Hloop |].
    pose proof (append_week_paced fetch_caiso_week sleep_time
                  (List.last (d0 :: ds) d0) end_date weekly_data' trace' Hloop) as Htail.
    destruct (append_week fetch_caiso_week (List.last (d0 :: ds) d0) end_date
                weekly_data' (trace' ++ [Sleep sleep_time]))
      as [trace'' [err | weekly_data'']]; exact Htail.
  - destruct (fetch_caiso_week start_date end_date); simpl; auto.
Qed.


